(** * gen_pattern.py: the calibration-pattern layout engine

    A shallow embedding of [PatternMaker] (src/gen_pattern.py) and the
    properties of its layout algorithms.

    Numbers.  Python [int]s are [Z].  Python [float]s are modelled by exact
    rationals [Q]: every arithmetic operation is the exact one, so binary64
    rounding is outside this model, and numeric results are compared with
    [==] (Qeq).  A float division by zero raises [ZeroDivisionError], as in
    Python.  Where a property is about the value the code computes to the
    last bit, the lines concerned are modelled a second time with the
    IEEE 754 binary64 operations of [PrimFloat] (the centres of
    [make_acircles_pattern], below).

    Effects.  [self.g] (the svgwrite group that collects the primitives),
    [self.dwg] (the svgwrite drawing) and the standard output written by
    [print] form the mutable [Store]; the methods run in a state-and-exception
    monad [M] over it, together with the file [save] writes.  The remaining attributes of [self] are assigned once
    by [__init__] and only read afterwards: they are the record
    [PatternMaker]. *)

From Stdlib Require Import ZArith QArith Lqa.
From Stdlib Require PrimFloat FloatOps SpecFloat Uint63.
From stdpp Require Import base list strings gmap pretty.

Local Open Scope Z_scope.

(** ** Exceptions, primitives and the store *)

Inductive Exn :=
  | ZeroDivisionError
  | TypeError (msg : string)
  | IndexError
  | KeyError (key : string)
  | ValueError
  | OSError.

Inductive Res (A : Type) :=
  | Val (a : A)
  | Raise (e : Exn).
Arguments Val {A} a.
Arguments Raise {A} e.

(** The elements built by [self.dwg.circle], [self.dwg.rect] and
    [self.dwg.path], with the keyword arguments the source passes. *)
Inductive Primitive :=
  | Circle (center : Q * Q) (r : Q) (fill stroke : string)
  | Rect (insert : Q * Q) (size : Q * Q) (fill stroke : string)
         (stroke_width : option Q)
  | Path (d : string) (fill stroke : string).

(** The children of the svgwrite drawing.  A fresh [svgwrite.Drawing] holds
    its [<defs>] element; [dwg.add(self.g)] appends a reference to the one
    group object [self.g], never a copy of it. *)
Inductive Element :=
  | Defs
  | GroupRef.

(** The lines written by [print]. *)
Inductive Message :=
  | MarkerTooLarge
      (* "Error: Aruco marker cannot be larger than chessboard square!" *)
  | InsufficientMarkers
      (* "Error: Aruco dictionary contains fewer markers than needed ..." *)
  | NarrowBorder (ch_ar_border : Q) (int_side : Z).
      (* "Marker border {} is less than 70% of ArUco pin size {}" *)

Record PatternMaker := {
  cols : Z;
  rows : Z;
  units : string;
  square_size : Q;
  radius_rate : Q;
  width : Q;
  height : Q;
  markers : option (list (Z * Z));
  aruco_marker_size : Q;
  dict_file : string
}.

(** A serialised drawing ([dwg.tostring()], or the file [dwg.save()]
    writes), abstracted as the sequence of its top-level children, each group
    with the primitives it holds when the drawing is serialised. *)
Inductive Rendered :=
  | RDefs
  | RGroup (children : list Primitive).

Definition Document := list Rendered.

Record Store := {
  g : list Primitive;
  dwg : list Element;
  stdout : list Message;
  output_file : option Document
}.

(** [__init__]: a new drawing and an empty group; nothing printed or saved. *)
Definition init_store : Store :=
  {| g := []; dwg := [Defs]; stdout := []; output_file := None |}.

(** ** The monad *)

Definition M (A : Type) : Type := Store -> Res A * Store.

Definition ret {A} (a : A) : M A := fun st => (Val a, st).

Definition bind {A B} (m : M A) (k : A -> M B) : M B :=
  fun st =>
    match m st with
    | (Val a, st') => k a st'
    | (Raise e, st') => (Raise e, st')
    end.

Definition raise {A} (e : Exn) : M A := fun st => (Raise e, st).

Definition lift {A} (r : Res A) : M A := fun st => (r, st).

Declare Scope py_scope.
Delimit Scope py_scope with py.
Notation "x <- m ;; k" := (bind m (fun x => k))
  (at level 100, m at next level, right associativity) : py_scope.
Notation "m ;;; k" := (bind m (fun _ => k))
  (at level 100, right associativity) : py_scope.

(** [self.g.add(p)] *)
Definition add_prims (ps : list Primitive) (st : Store) : Store :=
  {| g := g st ++ ps; dwg := dwg st; stdout := stdout st;
     output_file := output_file st |}.

Definition emit (p : Primitive) : M unit :=
  fun st => (Val tt, add_prims [p] st).

(** [print(m)] *)
Definition print (m : Message) : M unit :=
  fun st =>
    (Val tt, {| g := g st; dwg := dwg st; stdout := stdout st ++ [m];
                output_file := output_file st |}).

(** [for a in l: body(a)] *)
Fixpoint for_each {A} (l : list A) (body : A -> M unit) : M unit :=
  match l with
  | [] => ret tt
  | a :: l' => (body a ;;; for_each l' body)%py
  end.

(** [for a in l: acc = body(a, acc)], for a loop that updates a local. *)
Fixpoint for_fold {A S} (l : list A) (body : A -> S -> M S) (s : S) : M S :=
  match l with
  | [] => ret s
  | a :: l' => (s' <- body a s ;; for_fold l' body s')%py
  end.

(** [range(0, n)] *)
Definition range (n : Z) : list Z := seqZ 0 n.

(** Float division [a / b]. *)
Definition pydiv (a b : Q) : Res Q :=
  if Qeq_bool b 0 then Raise ZeroDivisionError else Val (a / b)%Q.

(** [x % 2 == y % 2] on integers *)
Definition same_parity (x y : Z) : bool := (x mod 2 =? y mod 2).

(** ** make_circles_pattern *)

(** The locals computed before a circle-grid loop. *)
Record Geometry := {
  geo_r : Q;
  pattern_width : Q;
  pattern_height : Q;
  x_spacing : Q;
  y_spacing : Q
}.

Definition circles_geometry (self : PatternMaker) : Res Geometry :=
  let spacing := square_size self in
  match pydiv spacing (radius_rate self) with
  | Raise e => Raise e
  | Val r =>
      let pattern_width := ((inject_Z (cols self) - 1) * spacing + 2 * r)%Q in
      let pattern_height := ((inject_Z (rows self) - 1) * spacing + 2 * r)%Q in
      Val {| geo_r := r;
             pattern_width := pattern_width;
             pattern_height := pattern_height;
             x_spacing := ((width self - pattern_width) / 2)%Q;
             y_spacing := ((height self - pattern_height) / 2)%Q |}
  end.

Definition circles_dot (self : PatternMaker) (geo : Geometry) (x y : Z)
  : Primitive :=
  let spacing := square_size self in
  let r := geo_r geo in
  Circle ((inject_Z x * spacing + x_spacing geo + r)%Q,
          (inject_Z y * spacing + y_spacing geo + r)%Q)
         r "black" "none".

Definition make_circles_pattern (self : PatternMaker) : M unit :=
  (geo <- lift (circles_geometry self) ;;
   for_each (range (cols self)) (fun x =>
     for_each (range (rows self)) (fun y =>
       emit (circles_dot self geo x y))))%py.

(** ** make_acircles_pattern *)

Definition acircles_geometry (self : PatternMaker) : Res Geometry :=
  let spacing := square_size self in
  match pydiv spacing (radius_rate self) with
  | Raise e => Raise e
  | Val r =>
      let pattern_width :=
        ((inject_Z (cols self) - 1) * 2 * spacing + spacing + 2 * r)%Q in
      let pattern_height := ((inject_Z (rows self) - 1) * spacing + 2 * r)%Q in
      Val {| geo_r := r;
             pattern_width := pattern_width;
             pattern_height := pattern_height;
             x_spacing := ((width self - pattern_width) / 2)%Q;
             y_spacing := ((height self - pattern_height) / 2)%Q |}
  end.

Definition acircles_dot (self : PatternMaker) (geo : Geometry) (x y : Z)
  : Primitive :=
  let spacing := square_size self in
  let r := geo_r geo in
  Circle ((2 * inject_Z x * spacing + inject_Z (y mod 2) * spacing
           + x_spacing geo + r)%Q,
          (inject_Z y * spacing + y_spacing geo + r)%Q)
         r "black" "none".

Definition make_acircles_pattern (self : PatternMaker) : M unit :=
  (geo <- lift (acircles_geometry self) ;;
   for_each (range (cols self)) (fun x =>
     for_each (range (rows self)) (fun y =>
       emit (acircles_dot self geo x y))))%py.

(** ** make_acircles_pattern in binary64

    The same lines (57-72) with the arithmetic the interpreter performs:
    every operation is the correctly rounded binary64 one.  The attributes
    [square_size], [radius_rate], [width] and [height] are binary64 numbers;
    [cols], [rows] and the loop indices are integers, converted where Python
    converts them (an [int] operand of a float operation). *)







(** ** make_checkerboard_pattern *)

Definition board_xspacing (self : PatternMaker) : Q :=
  ((width self - inject_Z (cols self) * square_size self) / 2)%Q.

Definition board_yspacing (self : PatternMaker) : Q :=
  ((height self - inject_Z (rows self) * square_size self) / 2)%Q.

(** The black square of cell (x, y), shared by the three checkerboards. *)
Definition cell_rect (self : PatternMaker) (x y : Z) : Primitive :=
  let spacing := square_size self in
  Rect ((inject_Z x * spacing + board_xspacing self)%Q,
        (inject_Z y * spacing + board_yspacing self)%Q)
       (spacing, spacing) "black" "none" None.

Definition make_checkerboard_pattern (self : PatternMaker) : M unit :=
  for_each (range (cols self)) (fun x =>
    for_each (range (rows self)) (fun y =>
      if same_parity x y then emit (cell_rect self x y) else ret tt)).

(** ** _get_type *)

Definition _get_type (self : PatternMaker) (x y : Z) : list string * bool :=
  let corners := ["right"; "right"; "right"; "right"] in
  let is_inside := true in
  let '(corners, is_inside) :=
    if x =? 0
    then (<[3%nat := "round"]> (<[0%nat := "round"]> corners), false)
    else (corners, is_inside) in
  let '(corners, is_inside) :=
    if y =? 0
    then (<[1%nat := "round"]> (<[0%nat := "round"]> corners), false)
    else (corners, is_inside) in
  let '(corners, is_inside) :=
    if x =? cols self - 1
    then (<[2%nat := "round"]> (<[1%nat := "round"]> corners), false)
    else (corners, is_inside) in
  let '(corners, is_inside) :=
    if y =? rows self - 1
    then (<[3%nat := "round"]> (<[2%nat := "round"]> corners), false)
    else (corners, is_inside) in
  (corners, is_inside).

(** ** _make_round_rect and make_radon_checkerboard_pattern *)

Definition rbind {A B} (r : Res A) (k : A -> Res B) : Res B :=
  match r with
  | Val a => k a
  | Raise e => Raise e
  end.

Fixpoint res_fold {A S} (l : list A) (body : A -> S -> Res S) (s : S)
  : Res S :=
  match l with
  | [] => Val s
  | a :: l' => rbind (body a s) (res_fold l' body)
  end.

(** [" ".join(path)] *)
Fixpoint join (sep : string) (l : list string) : string :=
  match l with
  | [] => ""
  | [s] => s
  | s :: l' => s +:+ sep +:+ join sep l'
  end.

Section Formatting.

(** How [str.format] prints one number inside a path description. *)
Variable fmt : Q -> string.

Definition cw_point (diam : Q) : list (Q * Q) :=
  [(0, 0); (diam, 0); (diam, diam); (0, diam)]%Q.

Definition mid_cw_point (diam rad : Q) : list (Q * Q) :=
  [(0, rad); (rad, 0); (diam, rad); (rad, diam)]%Q.

(** The body of the loop of [_make_round_rect] for corner [i]. *)
Definition round_rect_step (x y diam rad : Q) (corners : list string)
    (i : Z) (path : list string) : Res (list string) :=
  let n := 4 in
  let cw := nth (Z.to_nat i) (cw_point diam) (0, 0)%Q in
  let mid := nth (Z.to_nat ((i + 1) mod n)) (mid_cw_point diam rad) (0, 0)%Q in
  match corners !! Z.to_nat i with
  | None => Raise IndexError
  | Some c =>
      if String.eqb c "right" then
        Val (path
             ++ ["L" +:+ fmt (x + fst cw)%Q +:+ "," +:+ fmt (y + snd cw)%Q]
             ++ ["L" +:+ fmt (x + fst mid)%Q +:+ "," +:+ fmt (y + snd mid)%Q])
      else if String.eqb c "round" then
        Val (path
             ++ ["A" +:+ fmt rad +:+ "," +:+ fmt rad +:+ " 0 0 1 "
                 +:+ fmt (x + fst mid)%Q +:+ "," +:+ fmt (y + snd mid)%Q])
      else Raise (TypeError "unknown corner type")
  end.

Definition _make_round_rect (x y diam : Q) (corners : list string)
  : Res string :=
  let rad := (diam / 2)%Q in
  let path := ["M" +:+ fmt (x + rad)%Q +:+ "," +:+ fmt y] in
  rbind (res_fold (range 4) (round_rect_step x y diam rad corners) path)
    (fun path => Val (join " " (path ++ ["Z"]))).

(** The locals of the overlay pass. *)
Definition radon_geometry (self : PatternMaker) : Geometry :=
  let spacing := square_size self in
  let r := (square_size self * 0.17)%Q in
  let pattern_width := ((inject_Z (cols self) - 1) * spacing + 2 * r)%Q in
  let pattern_height := ((inject_Z (rows self) - 1) * spacing + 2 * r)%Q in
  {| geo_r := r;
     pattern_width := pattern_width;
     pattern_height := pattern_height;
     x_spacing := ((width self - pattern_width) / 2)%Q;
     y_spacing := ((height self - pattern_height) / 2)%Q |}.

Definition radon_dot (self : PatternMaker) (geo : Geometry) (xy : Z * Z)
  : Primitive :=
  let '(x, y) := xy in
  let spacing := square_size self in
  let r := geo_r geo in
  let color := if same_parity x y then "white" else "black" in
  Circle ((inject_Z x * spacing + x_spacing geo + r)%Q,
          (inject_Z y * spacing + y_spacing geo + r)%Q)
         r color "none".

Definition radon_cell (self : PatternMaker) (x y : Z) : M unit :=
  let spacing := square_size self in
  if same_parity x y then
    let '(corner_types, is_inside) := _get_type self x y in
    if is_inside then emit (cell_rect self x y)
    else
      (d <- lift (_make_round_rect
                    (inject_Z x * spacing + board_xspacing self)%Q
                    (inject_Z y * spacing + board_yspacing self)%Q
                    spacing corner_types) ;;
       emit (Path d "black" "none"))%py
  else ret tt.

Definition make_radon_checkerboard_pattern (self : PatternMaker) : M unit :=
  (for_each (range (cols self)) (fun x =>
     for_each (range (rows self)) (fun y => radon_cell self x y)) ;;;
   match markers self with
   | None => ret tt
   | Some ms =>
       let geo := radon_geometry self in
       for_each ms (fun xy => emit (radon_dot self geo xy))
   end)%py.

End Formatting.

(** ** _create_marker_bits *)

(** [np.zeros((n, n))] for [0 <= n]. *)
Definition zeros (n : nat) : list (list Z) := replicate n (replicate n 0).

(** [bits[i][j] = v], where [bits] is the view [marker[1:n+1, 1:n+1]]: the
    write lands in [marker[1+i][1+j]]. *)
Definition set_bit (i j : Z) (v : Z) (marker : list (list Z))
  : list (list Z) :=
  alter (fun row => <[Z.to_nat (1 + j) := v]> row) (Z.to_nat (1 + i)) marker.

(** [byteList] holds the marker's bits; [int(byteList[k])] is its [k]-th
    entry read as an integer, and [IndexError] past the end. *)
Definition _create_marker_bits (markerSize_bits : Z) (byteList : list Z)
  : Res (list (list Z)) :=
  if markerSize_bits + 2 <? 0 then Raise ValueError
  else
    let marker := zeros (Z.to_nat (markerSize_bits + 2)) in
    res_fold (range markerSize_bits) (fun i marker =>
      res_fold (range markerSize_bits) (fun j marker =>
        match byteList !! Z.to_nat (i * markerSize_bits + j) with
        | None => Raise IndexError
        | Some v => Val (set_bit i j v marker)
        end) marker) marker.

(** ** make_charuco_board *)

(** The parsed dictionary file: a JSON object with the integer entries
    ["nmarkers"] and ["markersize"] and one bit list per key
    ["marker_<id>"]. *)
Record Dictionary := {
  nmarkers : Z;
  markersize : Z;
  marker_entries : gmap string (list Z)
}.

(** What opening and parsing a path gives ([gzip.open]/[open] and
    [json.load]). *)
Definition FileSystem := string -> Res Dictionary.

(** [dictionary["marker_" + str(marker_id)]] *)
Definition marker_key (marker_id : Z) : string := "marker_" +:+ pretty marker_id.

Definition dict_marker (dictionary : Dictionary) (marker_id : Z)
  : Res (list Z) :=
  match marker_entries dictionary !! marker_key marker_id with
  | Some byteList => Val byteList
  | None => Raise (KeyError (marker_key marker_id))
  end.

(** [int(q)]: truncation toward zero. *)
Definition py_int (q : Q) : Z := Z.quot (Qnum q) (Z.pos (Qden q)).

(** [int(self.cols * self.rows / 2)]: the true division of the integer
    product, truncated toward zero.  The code divides in binary64; for
    |cols * rows| <= 2^53 the product and its half are represented exactly
    and the truncation is this quotient.  Beyond that range the quotient is
    rounded before it is truncated, and the statements that depend on the
    exact value carry the bound as a hypothesis. *)
Definition markers_needed (self : PatternMaker) : Z :=
  Z.quot (cols self * rows self) 2.

(** The locals of [make_charuco_board] (lines 195-200). *)
Record CharucoGeometry := {
  cg_bits : Z;
  cg_side : Q;
  cg_border : Q
}.

(** [len(img_mark[0])] *)
Definition grid_width (img_mark : list (list Z)) : Res Z :=
  match img_mark !! 0%nat with
  | Some row => Val (Z.of_nat (length row))
  | None => Raise IndexError
  end.

(** [img_mark[y_][x_]] *)
Definition grid_get (img_mark : list (list Z)) (y_ x_ : Z) : Res Z :=
  match img_mark !! Z.to_nat y_ with
  | Some row =>
      match row !! Z.to_nat x_ with
      | Some v => Val v
      | None => Raise IndexError
      end
  | None => Raise IndexError
  end.

(** The white square of bit ([x_], [y_]) of the marker drawn in cell (x, y). *)
Definition bit_rect (self : PatternMaker) (geo : CharucoGeometry)
    (x y x_ y_ : Z) : Primitive :=
  let spacing := square_size self in
  let x_pos := (inject_Z x * spacing + board_xspacing self)%Q in
  let y_pos := (inject_Z y * spacing + board_yspacing self)%Q in
  Rect ((x_pos + cg_border geo + inject_Z x_ * cg_side geo)%Q,
        (y_pos + cg_border geo + inject_Z y_ * cg_side geo)%Q)
       (cg_side geo, cg_side geo) "white" "white"
       (Some (spacing * 0.01)%Q).

(** The black marker square of cell (x, y). *)
Definition marker_rect (self : PatternMaker) (geo : CharucoGeometry)
    (x y : Z) : Primitive :=
  let spacing := square_size self in
  let x_pos := (inject_Z x * spacing + board_xspacing self)%Q in
  let y_pos := (inject_Z y * spacing + board_yspacing self)%Q in
  Rect ((x_pos + cg_border geo)%Q, (y_pos + cg_border geo)%Q)
       (aruco_marker_size self, aruco_marker_size self) "black" "none" None.

(** The body of the grid loop; [marker_id] is the loop-carried local. *)
Definition charuco_cell (self : PatternMaker) (dictionary : Dictionary)
    (geo : CharucoGeometry) (y x : Z) (marker_id : Z) : M Z :=
  if same_parity x y then
    (emit (cell_rect self x y) ;;; ret marker_id)%py
  else
    (byteList <- lift (dict_marker dictionary marker_id) ;;
     img_mark <- lift (_create_marker_bits (cg_bits geo) byteList) ;;
     let marker_id := marker_id + 1 in
     emit (marker_rect self geo x y) ;;;
     w <- lift (grid_width img_mark) ;;
     for_each (range w) (fun x_ =>
       for_each (range (Z.of_nat (length img_mark))) (fun y_ =>
         v <- lift (grid_get img_mark y_ x_) ;;
         if v =? 0 then ret tt else emit (bit_rect self geo x y x_ y_))) ;;;
     ret marker_id)%py.

(** Lines 195-236: the geometry, the warning and the grid loop. *)
Definition charuco_draw (self : PatternMaker) (dictionary : Dictionary)
  : M unit :=
  (let markerSize_bits := markersize dictionary in
   side <- lift (pydiv (aruco_marker_size self)
                       (inject_Z (markerSize_bits + 2))) ;;
   let ch_ar_border :=
     ((square_size self - aruco_marker_size self) / 2)%Q in
   let geo := {| cg_bits := markerSize_bits;
                 cg_side := side;
                 cg_border := ch_ar_border |} in
   (if Qlt_le_dec ch_ar_border (side * 0.7)%Q
    then print (NarrowBorder ch_ar_border (py_int side))
    else ret tt) ;;;
   _ <- for_fold (range (rows self)) (fun y marker_id =>
          for_fold (range (cols self)) (charuco_cell self dictionary geo y)
                   marker_id) 0 ;;
   ret tt)%py.

Definition make_charuco_board (fs : FileSystem) (self : PatternMaker)
  : M unit :=
  if Qlt_le_dec (square_size self) (aruco_marker_size self) then
    print MarkerTooLarge
  else
    (dictionary <- lift (fs (dict_file self)) ;;
     if nmarkers dictionary <? markers_needed self then
       print InsufficientMarkers
     else charuco_draw self dictionary)%py.

(** ** get_svg_string and save *)

(** [self.dwg.add(self.g)] *)
Definition dwg_add_g : M unit :=
  fun st =>
    (Val tt, {| g := g st; dwg := dwg st ++ [GroupRef]; stdout := stdout st;
                output_file := output_file st |}).

Definition tostring (st : Store) : Document :=
  map (fun e => match e with
                | Defs => RDefs
                | GroupRef => RGroup (g st)
                end) (dwg st).

Definition get_svg_string (self : PatternMaker) : M Document :=
  (dwg_add_g ;;; fun st => (Val (tostring st), st))%py.

Definition save (self : PatternMaker) : M unit :=
  (dwg_add_g ;;;
   fun st =>
     (Val tt, {| g := g st; dwg := dwg st; stdout := stdout st;
                 output_file := Some (tostring st) |}))%py.

(** ** The circle-grid layout as the specification words it *)

(** radius r = squareSize / radiusRate *)
Definition spec_radius (self : PatternMaker) : Q :=
  (square_size self / radius_rate self)%Q.

(** footprint = ((columns-1)·squareSize + 2r, (rows-1)·squareSize + 2r) *)
Definition spec_footprint (self : PatternMaker) : Q * Q :=
  (((inject_Z (cols self) - 1) * square_size self + 2 * spec_radius self)%Q,
   ((inject_Z (rows self) - 1) * square_size self + 2 * spec_radius self)%Q).

(** offset = (pageDimension - footprintDimension) / 2, per axis *)
Definition spec_offsets (self : PatternMaker) : Q * Q :=
  (((width self - fst (spec_footprint self)) / 2)%Q,
   ((height self - snd (spec_footprint self)) / 2)%Q).

(** cell (x,y) center = (x·squareSize + xOffset + r, y·squareSize + yOffset + r) *)
Definition spec_circle_center (self : PatternMaker) (x y : Z) : Q * Q :=
  ((inject_Z x * square_size self + fst (spec_offsets self)
    + spec_radius self)%Q,
   (inject_Z y * square_size self + snd (spec_offsets self)
    + spec_radius self)%Q).

(** The defaults of the editor: 8 columns, 11 rows, squares of 20 mm, radius
    rate 5, an A4 page. *)
Definition default_board : PatternMaker :=
  {| cols := 8; rows := 11; units := "mm";
     square_size := 20; radius_rate := 5;
     width := 210; height := 297;
     markers := None; aruco_marker_size := 10;
     dict_file := "DICT_ARUCO_ORIGINAL.json" |}.

(** ** The asymmetric circle grid as the specification words it *)

(** footprint width = (columns-1)·2·squareSize + squareSize + 2r *)
Definition spec_acircles_footprint (self : PatternMaker) : Q * Q :=
  (((inject_Z (cols self) - 1) * 2 * square_size self + square_size self
    + 2 * spec_radius self)%Q,
   ((inject_Z (rows self) - 1) * square_size self + 2 * spec_radius self)%Q).

Definition spec_acircles_offsets (self : PatternMaker) : Q * Q :=
  (((width self - fst (spec_acircles_footprint self)) / 2)%Q,
   ((height self - snd (spec_acircles_footprint self)) / 2)%Q).


(** A corner flag [_make_round_rect] accepts. *)
Definition valid_flag (c : string) : Prop := c = "right" \/ c = "round".

(** The primitives one pass of the Radon grid-loop body appends. *)
Definition radon_cell_prims (fmt : Q -> string) (self : PatternMaker)
    (x y : Z) : list Primitive :=
  if same_parity x y then
    if snd (_get_type self x y) then [cell_rect self x y]
    else
      match _make_round_rect fmt
              (inject_Z x * square_size self + board_xspacing self)%Q
              (inject_Z y * square_size self + board_yspacing self)%Q
              (square_size self) (fst (_get_type self x y)) with
      | Val d => [Path d "black" "none"]
      | Raise _ => []
      end
  else [].

(** The primitive of a filled cell whose flags are not all ["right"]: the
    closed path [_make_round_rect] returns at the cell's corner for those
    flags. *)
Definition is_cell_path (fmt : Q -> string) (self : PatternMaker) (x y : Z)
    (p : Primitive) : Prop :=
  exists body,
    _make_round_rect fmt
      (inject_Z x * square_size self + board_xspacing self)%Q
      (inject_Z y * square_size self + board_yspacing self)%Q
      (square_size self) (fst (_get_type self x y))
    = Val (("M" +:+ fmt (inject_Z x * square_size self + board_xspacing self
                         + square_size self / 2)%Q
                +:+ "," +:+ fmt (inject_Z y * square_size self
                                 + board_yspacing self)%Q)
           +:+ " " +:+ body +:+ "Z")
    /\ p = Path (("M" +:+ fmt (inject_Z x * square_size self
                               + board_xspacing self
                               + square_size self / 2)%Q
                     +:+ "," +:+ fmt (inject_Z y * square_size self
                                      + board_yspacing self)%Q)
                +:+ " " +:+ body +:+ "Z") "black" "none".

(** ** The overlay dots as the specification words them *)

(** radius squareSize·0.17 *)
Definition spec_overlay_radius (self : PatternMaker) : Q :=
  (square_size self * 0.17)%Q.

(** The circle grid's centring, with the overlay radius. *)
Definition spec_overlay_offsets (self : PatternMaker) : Q * Q :=
  let r := spec_overlay_radius self in
  (((width self - ((inject_Z (cols self) - 1) * square_size self + 2 * r)) / 2)%Q,
   ((height self - ((inject_Z (rows self) - 1) * square_size self + 2 * r)) / 2)%Q).

(** White where the checkerboard fills the cell black, black elsewhere. *)
Definition spec_overlay_fill (x y : Z) : string :=
  if decide (x mod 2 = y mod 2) then "white" else "black".

Definition spec_overlay_dot (self : PatternMaker) (xy : Z * Z) : Primitive :=
  let r := spec_overlay_radius self in
  Circle ((inject_Z xy.1 * square_size self + fst (spec_overlay_offsets self) + r)%Q,
          (inject_Z xy.2 * square_size self + snd (spec_overlay_offsets self) + r)%Q)
         r (spec_overlay_fill xy.1 xy.2) "none".

(** A 5 x 5 board on an A4 page, with two overlay dots, one of them outside
    the grid. *)
Definition board_5x5 : PatternMaker :=
  {| cols := 5; rows := 5; units := "mm";
     square_size := 20; radius_rate := 5;
     width := 210; height := 297;
     markers := Some [(0, 0); (7, -1)]; aruco_marker_size := 20;
     dict_file := "DICT_ARUCO_ORIGINAL.json" |}.

(** A formatter for examples: numerator and denominator. *)
Definition fmt_fraction (q : Q) : string :=
  pretty (Qnum q) +:+ "/" +:+ pretty (Z.pos (Qden q)).

(** ** The marker grid while it is being filled *)

(** [grid[r][c]], when both indices are in range. *)
Definition grid_at (grid : list (list Z)) (r c : nat) : option Z :=
  grid !! r ≫= (fun row => row !! c).

Definition square_grid (N : nat) (grid : list (list Z)) : Prop :=
  length grid = N /\ Forall (fun row => length row = N) grid.

(** What cell (r, c) of the marker holds when the loops of
    [_create_marker_bits] are about to write bit (i, j): the bits before
    (i, j) in row-major order are in place, one cell down and right; every
    other cell still holds 0. *)
Definition partial_cell (n : Z) (byteList : list Z) (i j : Z) (r c : nat)
  : Z :=
  let r' := Z.of_nat r - 1 in
  let c' := Z.of_nat c - 1 in
  if decide (0 <= r' /\ (0 <= c' /\ c' < n) /\ (r' < i \/ (r' = i /\ c' < j)))
  then default 0 (byteList !! Z.to_nat (r' * n + c'))
  else 0.

Definition marker_inv (n : Z) (byteList : list Z) (i j : Z)
    (grid : list (list Z)) : Prop :=
  square_grid (Z.to_nat (n + 2)) grid
  /\ forall r c, (r < Z.to_nat (n + 2))%nat -> (c < Z.to_nat (n + 2))%nat ->
       grid_at grid r c = Some (partial_cell n byteList i j r c).

(** ** Marker boards: auxiliary notions *)

(** The store after [print(m)]. *)
Definition printed (m : Message) (st : Store) : Store :=
  {| g := g st; dwg := dwg st; stdout := stdout st ++ [m];
     output_file := output_file st |}.

(** A computation that prints nothing and leaves the drawing and the output
    file alone, whether it returns or raises. *)
Definition quiet {A} (m : M A) : Prop :=
  forall st,
    stdout (m st).2 = stdout st
    /\ dwg (m st).2 = dwg st
    /\ output_file (m st).2 = output_file st.

(** A dictionary of twelve one-bit markers, and a file system that holds it
    under every name. *)
Definition aruco_12 : Dictionary :=
  {| nmarkers := 12; markersize := 1;
     marker_entries :=
       list_to_map ((fun i => (marker_key (Z.of_nat i), [1])) <$> seq 0 12) |}.

Definition fs_12 : FileSystem := fun _ => Val aruco_12.

(** ** Serialising several times *)

Inductive Serializer :=
  | GetSvgString
  | Save.

(** The document one serialising call produces: the string
    [get_svg_string] returns, or the file [save] has just written. *)
Definition produced (self : PatternMaker) (c : Serializer) : M Document :=
  match c with
  | GetSvgString => get_svg_string self
  | Save => (save self ;;;
             fun st => (Val (default [] (output_file st)), st))%py
  end.

(** The calls [cs] in sequence on one [PatternMaker], with the documents
    they produce. *)
Fixpoint produced_all (self : PatternMaker) (cs : list Serializer)
  : M (list Document) :=
  match cs with
  | [] => ret []
  | c :: cs' =>
      (doc <- produced self c ;;
       docs <- produced_all self cs' ;;
       ret (doc :: docs))%py
  end.

(** ** The marker board as a list of primitives *)

(** The number of marker cells before cell (x, y) in row-major order, which
    is the value of [marker_id] when the grid loop reaches the cell. *)
Definition marker_index (self : PatternMaker) (y x : Z) : Z :=
  (y * cols self) / 2 + (x + y mod 2) / 2.

(** The locals [markerSize_bits], [side] and [ch_ar_border], when
    [markerSize_bits + 2] is not zero. *)
Definition charuco_geometry (self : PatternMaker) (d : Dictionary)
  : CharucoGeometry :=
  {| cg_bits := markersize d;
     cg_side := (aruco_marker_size self / inject_Z (markersize d + 2))%Q;
     cg_border := ((square_size self - aruco_marker_size self) / 2)%Q |}.

(** The white squares of one marker: columns outside, rows inside. *)
Definition bit_prims (self : PatternMaker) (geo : CharucoGeometry)
    (x y : Z) (img_mark : list (list Z)) : list Primitive :=
  concat ((fun x_ =>
             concat ((fun y_ =>
                        match grid_get img_mark y_ x_ with
                        | Val v =>
                            if v =? 0 then []
                            else [bit_rect self geo x y x_ y_]
                        | Raise _ => []
                        end) <$> range (Z.of_nat (length img_mark))))
            <$> range (match grid_width img_mark with
                       | Val w => w
                       | Raise _ => 0
                       end)).

(** The black square and the bits of marker [marker_id] in cell (x, y). *)
Definition marker_prims (self : PatternMaker) (d : Dictionary)
    (geo : CharucoGeometry) (x y : Z) (marker_id : Z) : list Primitive :=
  match dict_marker d marker_id with
  | Val byteList =>
      match _create_marker_bits (cg_bits geo) byteList with
      | Val img_mark =>
          marker_rect self geo x y :: bit_prims self geo x y img_mark
      | Raise _ => []
      end
  | Raise _ => []
  end.

Definition charuco_cell_prims (self : PatternMaker) (d : Dictionary)
    (geo : CharucoGeometry) (y x : Z) : list Primitive :=
  if same_parity x y then [cell_rect self x y]
  else marker_prims self d geo x y (marker_index self y x).

Definition charuco_board_prims (self : PatternMaker) (d : Dictionary)
  : list Primitive :=
  concat ((fun y =>
             concat (charuco_cell_prims self d (charuco_geometry self d) y
                       <$> range (cols self)))
            <$> range (rows self)).

(** A dictionary that holds the markers it announces: bit grids of a
    non-negative side, and for each id below [nmarkers] an entry with at
    least side * side bits. *)
Definition well_formed (d : Dictionary) : Prop :=
  0 <= markersize d
  /\ forall id, 0 <= id < nmarkers d ->
       exists byteList,
         marker_entries d !! marker_key id = Some byteList
         /\ (Z.to_nat (markersize d * markersize d) <= length byteList)%nat.

(** ** The callers: generate_preview and save_pattern *)

(** The method table [pattern_methods] of [generate_preview] and
    [save_pattern], in the order it is written. *)
Definition pattern_methods (fmt : Q -> string) (self : PatternMaker)
  : list (string * M unit) :=
  [("circles", make_circles_pattern self);
   ("acircles", make_acircles_pattern self);
   ("checkerboard", make_checkerboard_pattern self);
   ("radon_checkerboard", make_radon_checkerboard_pattern fmt self)].

(** [table[key]] on a dict literal: the entry, or [KeyError]. *)
Fixpoint table_get {A} (table : list (string * A)) (key : string) : Res A :=
  match table with
  | [] => Raise (KeyError key)
  | (k, v) :: table' => if String.eqb k key then Val v else table_get table' key
  end.

(** Lines 571-582 (and 676-687): run the method the pattern type names. *)
Definition run_pattern (fs : FileSystem) (fmt : Q -> string)
    (self : PatternMaker) (pattern_type : string) : M unit :=
  if String.eqb pattern_type "charuco_board" then make_charuco_board fs self
  else (method <- lift (table_get (pattern_methods fmt self) pattern_type) ;;
        method)%py.

(** Lines 571-585: generate, then serialise for the preview. *)
Definition preview_svg (fs : FileSystem) (fmt : Q -> string)
    (self : PatternMaker) (pattern_type : string) : M Document :=
  (run_pattern fs fmt self pattern_type ;;; get_svg_string self)%py.

(** Lines 676-690: generate, then save. *)
Definition save_svg (fs : FileSystem) (fmt : Q -> string)
    (self : PatternMaker) (pattern_type : string) : M unit :=
  (run_pattern fs fmt self pattern_type ;;; save self)%py.

(** ** requirment.py: check_dependencies *)

(** What [importlib.import_module(name)] does: it returns, raises
    [ImportError], or raises something the script does not catch. *)
Inductive Import :=
  | ImportOk
  | ImportError
  | ImportCrash.

(** How the script ends. *)
Inductive Exit :=
  | Returns
  | SysExit (msg : string)
  | Crashes.

Definition dependencies : list (string * string) :=
  [("numpy", "numpy"); ("Pillow", "PIL");
   ("cairosvg", "cairosvg"); ("svgwrite", "svgwrite")].

(** The loop of [check_dependencies]: the lines printed and the list
    [missing], or the lines printed before an uncaught exception. *)
Fixpoint check_loop (import_module : string -> Import)
    (deps : list (string * string)) (out missing : list string)
  : list string * option (list string) :=
  match deps with
  | [] => (out, Some missing)
  | (pkg_name, module_name) :: deps' =>
      match import_module module_name with
      | ImportOk =>
          check_loop import_module deps'
            (out ++ [pkg_name +:+ " is installed."]) missing
      | ImportError =>
          check_loop import_module deps'
            (out ++ [pkg_name +:+ " is missing. Please install it using pip."])
            (missing ++ [pkg_name])
      | ImportCrash => (out, None)
      end
  end.

Definition check_dependencies (import_module : string -> Import)
  : list string * Exit :=
  match check_loop import_module dependencies [] [] with
  | (out, None) => (out, Crashes)
  | (out, Some []) => (out, Returns)
  | (out, Some (_ :: _)) =>
      (out, SysExit "One or more required packages are missing.")
  end.

(** A computation that leaves the drawing's children and the output file
    alone, whether it returns or raises. *)
Definition keeps_drawing {A} (m : M A) : Prop :=
  forall st,
    dwg (m st).2 = dwg st /\ output_file (m st).2 = output_file st.

(** The line [check_dependencies] prints for a dependency that imports or
    fails to import. *)
Definition report_line (import_module : string -> Import)
    (dep : string * string) : string :=
  match import_module dep.2 with
  | ImportOk => dep.1 +:+ " is installed."
  | _ => dep.1 +:+ " is missing. Please install it using pip."
  end.

Definition is_missing (import_module : string -> Import)
    (dep : string * string) : bool :=
  match import_module dep.2 with
  | ImportError => true
  | _ => false
  end.

(** * Properties *)

(** ** Loops that only emit primitives *)

Lemma add_prims_nil st : add_prims [] st = st.
Proof. destruct st; unfold add_prims; simpl. by rewrite app_nil_r. Qed.

Lemma add_prims_app ps qs st :
  add_prims qs (add_prims ps st) = add_prims (ps ++ qs) st.
Proof. unfold add_prims; simpl. by rewrite app_assoc. Qed.

Lemma g_add_prims ps st : g (add_prims ps st) = g st ++ ps.
Proof. reflexivity. Qed.

Lemma for_each_emits {A} (l : list A) (body : A -> M unit)
    (f : A -> list Primitive) :
  (forall a st, a ∈ l -> body a st = (Val tt, add_prims (f a) st)) ->
  forall st, for_each l body st = (Val tt, add_prims (concat (f <$> l)) st).
Proof.
  induction l as [|a l IH]; intros Hbody st; simpl.
  - unfold ret. by rewrite add_prims_nil.
  - unfold bind. rewrite Hbody by apply list_elem_of_here.
    rewrite IH.
    + by rewrite add_prims_app.
    + intros b st' Hb. apply Hbody. by apply list_elem_of_further.
Qed.

Lemma concat_singletons {A B} (h : A -> B) (l : list A) :
  concat ((fun a => [h a]) <$> l) = h <$> l.
Proof. induction l as [|a l IH]; csimpl; [done | by f_equal]. Qed.

(** Row [i] of a concatenation of blocks of one length [n]. *)
Lemma lookup_concat_uniform {A B} (f : A -> list B) (n : nat) (l : list A) :
  (forall a, a ∈ l -> length (f a) = n) ->
  forall i j, (j < n)%nat ->
    concat (f <$> l) !! (i * n + j)%nat = l !! i ≫= (fun a => f a !! j).
Proof.
  induction l as [|a l IH]; intros Hlen i j Hj; simpl.
  - by rewrite !lookup_nil.
  - assert (length (f a) = n) as Ha by apply Hlen, list_elem_of_here.
    destruct i as [|i]; simpl.
    + rewrite lookup_app_l by lia. done.
    + rewrite lookup_app_r by lia.
      replace (n + i * n + j - length (f a))%nat with (i * n + j)%nat by lia.
      apply IH; [|done].
      intros b Hb. apply Hlen. by apply list_elem_of_further.
Qed.

Lemma length_concat_uniform {A B} (f : A -> list B) (n : nat) (l : list A) :
  (forall a, a ∈ l -> length (f a) = n) ->
  length (concat (f <$> l)) = (length l * n)%nat.
Proof.
  induction l as [|a l IH]; intros Hlen; csimpl; [done|].
  rewrite length_app, IH.
  - by rewrite (Hlen a) by apply list_elem_of_here.
  - intros b Hb. apply Hlen. by apply list_elem_of_further.
Qed.

Lemma length_range n : length (range n) = Z.to_nat n.
Proof. unfold range. apply length_seqZ. Qed.

Lemma lookup_range n (i : Z) :
  0 <= i < n -> range n !! Z.to_nat i = Some i.
Proof.
  intros Hi. unfold range. rewrite lookup_seqZ_lt by lia. f_equal. lia.
Qed.

(** A grid loop [for x in range(cs): for y in range(rs): g.add(dot(x, y))]
    appends the dots column by column. *)
Lemma grid_loop_emits (cs rs : Z) (dot : Z -> Z -> Primitive) st :
  for_each (range cs) (fun x => for_each (range rs) (fun y => emit (dot x y)))
    st
  = (Val tt, add_prims (concat ((fun x => dot x <$> range rs) <$> range cs)) st).
Proof.
  apply for_each_emits. intros x st' _.
  rewrite (for_each_emits _ _ (fun y => [dot x y])) by done.
  by rewrite (concat_singletons (dot x)).
Qed.

Lemma grid_lookup (cs rs : Z) (dot : Z -> Z -> Primitive) (x y : Z) :
  0 <= x < cs -> 0 <= y < rs ->
  concat ((fun x => dot x <$> range rs) <$> range cs)
    !! Z.to_nat (x * rs + y) = Some (dot x y).
Proof.
  intros Hx Hy.
  replace (Z.to_nat (x * rs + y))
    with (Z.to_nat x * Z.to_nat rs + Z.to_nat y)%nat by lia.
  rewrite (lookup_concat_uniform _ (Z.to_nat rs)).
  - rewrite lookup_range by done. simpl.
    rewrite list_lookup_fmap, lookup_range by done. done.
  - intros a _. by rewrite length_fmap, length_range.
  - lia.
Qed.


Lemma grid_length (cs rs : Z) (dot : Z -> Z -> Primitive) :
  length (concat ((fun x => dot x <$> range rs) <$> range cs))
  = (Z.to_nat cs * Z.to_nat rs)%nat.
Proof.
  rewrite (length_concat_uniform _ (Z.to_nat rs)).
  - by rewrite length_range.
  - intros a _. by rewrite length_fmap, length_range.
Qed.

Lemma pydiv_nonzero a b : ~ (b == 0)%Q -> pydiv a b = Val (a / b)%Q.
Proof.
  intros Hb. unfold pydiv.
  destruct (Qeq_bool b 0) eqn:E; [|done].
  by apply Qeq_bool_eq in E.
Qed.

(** ** Circle grid *)

Lemma circles_geometry_nonzero self :
  ~ (radius_rate self == 0)%Q ->
  exists geo,
    circles_geometry self = Val geo
    /\ geo_r geo = spec_radius self
    /\ (pattern_width geo, pattern_height geo) = spec_footprint self
    /\ (x_spacing geo, y_spacing geo) = spec_offsets self.
Proof.
  intros Hrr. unfold circles_geometry. rewrite pydiv_nonzero by done.
  eexists; split; [reflexivity|]. simpl. done.
Qed.

(** C1, the scenario as the source computes it: on the default board the
    footprint is 208 high, not 108, so the vertical offset is not 94.5 and the
    first circle is not centred at height 98.5. *)
Lemma circles_scenario_not_108 :
  exists geo st',
    circles_geometry default_board = Val geo
    /\ make_circles_pattern default_board init_store = (Val tt, st')
    /\ ~ (pattern_height geo == 108)%Q
    /\ ~ (y_spacing geo == 94.5)%Q
    /\ exists cx cy r,
         g st' !! 0%nat = Some (Circle (cx, cy) r "black" "none")
         /\ ~ (cy == 98.5)%Q.
Proof.
  eexists; eexists.
  split; [vm_compute; reflexivity|].
  split; [vm_compute; reflexivity|].
  split; [by vm_compute|].
  split; [by vm_compute|].
  do 3 eexists. split; [vm_compute; reflexivity|]. by vm_compute.
Qed.

(** C1 (amended).  On the default board (8 columns, 11 rows, squares of 20,
    radius rate 5, page 210 x 297) [make_circles_pattern] computes radius 4,
    footprint (148, 208) and offsets (31, 44.5), and its first circle, the one
    of cell (0,0), is centred at (35, 48.5).  In general, when the radius rate
    is not zero, the call returns having appended columns x rows circles, and
    the circle of cell (x, y), at position x * rows + y, has radius
    squareSize / radiusRate and centre
    (x * squareSize + xOffset + r, y * squareSize + yOffset + r) with the
    offsets (page - footprint) / 2 per axis. *)
Theorem circles_pattern_layout :
  (exists geo st',
     circles_geometry default_board = Val geo
     /\ (geo_r geo == 4)%Q
     /\ (pattern_width geo == 148)%Q /\ (pattern_height geo == 208)%Q
     /\ (x_spacing geo == 31)%Q /\ (y_spacing geo == 44.5)%Q
     /\ make_circles_pattern default_board init_store = (Val tt, st')
     /\ exists cx cy r,
          g st' !! 0%nat = Some (Circle (cx, cy) r "black" "none")
          /\ (cx == 35)%Q /\ (cy == 48.5)%Q /\ (r == 4)%Q)
  /\ forall self st,
       ~ (radius_rate self == 0)%Q ->
       exists dots,
         make_circles_pattern self st = (Val tt, add_prims dots st)
         /\ length dots = (Z.to_nat (cols self) * Z.to_nat (rows self))%nat
         /\ forall x y, 0 <= x < cols self -> 0 <= y < rows self ->
              dots !! Z.to_nat (x * rows self + y)
              = Some (Circle (spec_circle_center self x y) (spec_radius self)
                             "black" "none").
Proof.
  split.
  - eexists; eexists.
    split; [vm_compute; reflexivity|].
    do 5 (split; [by vm_compute|]).
    split; [vm_compute; reflexivity|].
    do 3 eexists. split; [vm_compute; reflexivity|]. by vm_compute.
  - intros self st Hrr.
    destruct (circles_geometry_nonzero self Hrr)
      as (geo & Hgeo & Hr & Hfoot & Hoff).
    eexists. unfold make_circles_pattern, bind, lift. rewrite Hgeo.
    split; [apply grid_loop_emits|].
    split; [apply grid_length|].
    intros x y Hx Hy. rewrite grid_lookup by done.
    unfold circles_dot, spec_circle_center. rewrite <- Hoff, Hr. done.
Qed.

Lemma circles_pattern_layout_witness :
  exists dots,
    make_circles_pattern default_board init_store
    = (Val tt, add_prims dots init_store)
    /\ length dots = 88%nat
    /\ dots !! Z.to_nat (3 * rows default_board + 4)
       = Some (Circle (spec_circle_center default_board 3 4)
                      (spec_radius default_board) "black" "none").
Proof.
  destruct (proj2 circles_pattern_layout default_board init_store)
    as (dots & Hrun & Hlen & Hdots).
  - by vm_compute.
  - exists dots. split; [exact Hrun|]. split; [exact Hlen|].
    apply Hdots; simpl; lia.
Defined.

(** ** Asymmetric circle grid *)

Lemma acircles_geometry_nonzero self :
  ~ (radius_rate self == 0)%Q ->
  exists geo,
    acircles_geometry self = Val geo
    /\ geo_r geo = spec_radius self
    /\ (x_spacing geo, y_spacing geo) = spec_acircles_offsets self.
Proof.
  intros Hrr. unfold acircles_geometry. rewrite pydiv_nonzero by done.
  eexists; split; [reflexivity|]. simpl. done.
Qed.











(** ** Rounded-rectangle paths *)

Lemma append_assoc (a b c : string) : (a +:+ b) +:+ c = a +:+ (b +:+ c).
Proof.
  induction a as [|ch a IH]; [reflexivity|].
  change (String ch ((a +:+ b) +:+ c) = String ch (a +:+ (b +:+ c))).
  by rewrite IH.
Qed.

Lemma join_cons sep (s : string) (l : list string) :
  l <> [] -> join sep (s :: l) = s +:+ sep +:+ join sep l.
Proof. by destruct l. Qed.

(** A joined list whose last item is [z] ends with [z]. *)
Lemma join_snoc sep (l : list string) (z : string) :
  exists pre, join sep (l ++ [z]) = pre +:+ z.
Proof.
  induction l as [|s l [pre IH]].
  - by exists "".
  - exists (s +:+ sep +:+ pre). simpl app.
    rewrite join_cons by (by destruct l).
    by rewrite IH, !append_assoc.
Qed.

Lemma range_4 : range 4 = [0; 1; 2; 3].
Proof. reflexivity. Qed.

Lemma valid_flag_dec (c : string) : {valid_flag c} + {~ valid_flag c}.
Proof.
  unfold valid_flag.
  destruct (decide (c = "right")); [by left; left|].
  destruct (decide (c = "round")); [by left; right|].
  right. by intros [|].
Defined.

Section RoundRect.

Variable fmt : Q -> string.
Variables x y diam : Q.
Variable corners : list string.

Lemma round_rect_step_valid i c path :
  corners !! Z.to_nat i = Some c -> valid_flag c ->
  exists segs,
    round_rect_step fmt x y diam (diam / 2) corners i path
    = Val (path ++ segs).
Proof.
  intros Hc [-> | ->]; unfold round_rect_step; rewrite Hc; simpl.
  - by eexists.
  - by eexists.
Qed.

Lemma round_rect_step_invalid i c path :
  corners !! Z.to_nat i = Some c -> ~ valid_flag c ->
  round_rect_step fmt x y diam (diam / 2) corners i path
  = Raise (TypeError "unknown corner type").
Proof.
  intros Hc Hbad. unfold round_rect_step. rewrite Hc.
  destruct (String.eqb_spec c "right") as [->|_];
    [by destruct Hbad; left|].
  destruct (String.eqb_spec c "round") as [->|_];
    [by destruct Hbad; right|].
  done.
Qed.

(** Folding the loop body over corners that are all present and valid
    only extends the path. *)
Lemma round_rect_fold_valid (idxs : list Z) path :
  (forall i, i ∈ idxs ->
     exists c, corners !! Z.to_nat i = Some c /\ valid_flag c) ->
  exists segs,
    res_fold idxs (round_rect_step fmt x y diam (diam / 2) corners) path
    = Val (path ++ segs).
Proof.
  revert path. induction idxs as [|i idxs IH]; intros path Hall; simpl.
  - exists []. by rewrite app_nil_r.
  - destruct (Hall i) as (c & Hc & Hv); [apply list_elem_of_here|].
    destruct (round_rect_step_valid i c path Hc Hv) as [segs1 ->]. simpl.
    destruct (IH (path ++ segs1)) as [segs2 ->].
    + intros j Hj. apply Hall. by apply list_elem_of_further.
    + exists (segs1 ++ segs2). by rewrite app_assoc.
Qed.

(** Folding it over a list in which some corner is present but invalid
    raises [TypeError], when every corner is present. *)
Lemma round_rect_fold_invalid (idxs : list Z) path :
  (forall i, i ∈ idxs -> is_Some (corners !! Z.to_nat i)) ->
  (exists i c, i ∈ idxs /\ corners !! Z.to_nat i = Some c /\ ~ valid_flag c) ->
  res_fold idxs (round_rect_step fmt x y diam (diam / 2) corners) path
  = Raise (TypeError "unknown corner type").
Proof.
  revert path. induction idxs as [|i idxs IH]; intros path Hall Hbad; simpl.
  - destruct Hbad as (i & c & Hi & _). by apply elem_of_nil in Hi.
  - destruct (Hall i) as [c Hc]; [apply list_elem_of_here|].
    destruct (valid_flag_dec c) as [Hv|Hv].
    + destruct (round_rect_step_valid i c path Hc Hv) as [segs ->]. simpl.
      apply IH.
      * intros j Hj. apply Hall. by apply list_elem_of_further.
      * destruct Hbad as (j & d & Hj & Hd & Hbad).
        apply elem_of_cons in Hj as [-> | Hj].
        -- rewrite Hc in Hd. by injection Hd as ->.
        -- by exists j, d.
    + by rewrite (round_rect_step_invalid i c path Hc Hv).
Qed.

End RoundRect.

Lemma four_corners_present (c0 c1 c2 c3 : string) i :
  i ∈ [0; 1; 2; 3] -> is_Some ([c0; c1; c2; c3] !! Z.to_nat i).
Proof.
  intros Hi. repeat (apply elem_of_cons in Hi as [-> | Hi]; [by eexists|]).
  by apply elem_of_nil in Hi.
Qed.

(** On valid flags the path is returned: it opens with the move to the
    top-edge midpoint and closes with "Z". *)
Lemma make_round_rect_valid (fmt : Q -> string) (x y diam : Q)
    (c0 c1 c2 c3 : string) :
  Forall valid_flag [c0; c1; c2; c3] ->
  exists body,
    _make_round_rect fmt x y diam [c0; c1; c2; c3]
    = Val (("M" +:+ fmt (x + diam / 2)%Q +:+ "," +:+ fmt y)
           +:+ " " +:+ body +:+ "Z").
Proof.
  intros Hall. unfold _make_round_rect. rewrite range_4.
  edestruct (round_rect_fold_valid fmt x y diam [c0; c1; c2; c3]
               [0; 1; 2; 3]) as [segs ->].
  { intros i Hi. destruct (four_corners_present c0 c1 c2 c3 i Hi) as [c Hc].
    exists c. split; [done|].
    rewrite Forall_forall in Hall. apply Hall.
    by eapply list_elem_of_lookup_2. }
  cbn [rbind app].
  rewrite join_cons by (by destruct segs).
  destruct (join_snoc " " segs "Z") as [pre ->]. by exists pre.
Qed.

Ltac flags_valid :=
  repeat (apply Forall_cons; split; [(by left) || (by right)|]);
  by apply Forall_nil.

(** C10.  On a 4-tuple of corner flags [_make_round_rect] always returns or
    raises (it is a function of its arguments, so equal arguments give the
    equal string): when every flag is "right" or "round" it returns a path
    that starts with the command "M" at the top-edge midpoint
    (x + diam / 2, y) and ends with "Z"; and it raises [TypeError] exactly
    when some flag is neither "right" nor "round". *)
Theorem make_round_rect_total (fmt : Q -> string) (x y diam : Q)
    (c0 c1 c2 c3 : string) :
  (Forall valid_flag [c0; c1; c2; c3] ->
   exists body,
     _make_round_rect fmt x y diam [c0; c1; c2; c3]
     = Val (("M" +:+ fmt (x + diam / 2)%Q +:+ "," +:+ fmt y)
            +:+ " " +:+ body +:+ "Z"))
  /\ (_make_round_rect fmt x y diam [c0; c1; c2; c3]
      = Raise (TypeError "unknown corner type")
      <-> ~ Forall valid_flag [c0; c1; c2; c3]).
Proof.
  split; [apply make_round_rect_valid|]. split.
  - intros Hraise Hall.
    destruct (make_round_rect_valid fmt x y diam c0 c1 c2 c3 Hall)
      as [body Hbody].
    congruence.
  - intros Hnot. unfold _make_round_rect. rewrite range_4.
    rewrite round_rect_fold_invalid; [done | apply four_corners_present |].
    apply (not_Forall_Exists _ (dec:=valid_flag_dec)) in Hnot.
    apply Exists_exists in Hnot as (c & Hin & Hbad).
    apply list_elem_of_lookup in Hin as [i Hi].
    pose proof (lookup_lt_Some _ _ _ Hi) as Hlt. simpl in Hlt.
    exists (Z.of_nat i), c. rewrite Nat2Z.id.
    split; [|by split].
    destruct i as [|[|[|[|i]]]]; [set_solver.. | lia].
Qed.

Lemma make_round_rect_total_witness :
  (exists body,
     _make_round_rect fmt_fraction 0 0 20 ["round"; "right"; "right"; "round"]
     = Val (("M" +:+ fmt_fraction (0 + 20 / 2)%Q +:+ "," +:+ fmt_fraction 0)
            +:+ " " +:+ body +:+ "Z"))
  /\ _make_round_rect fmt_fraction 0 0 20 ["round"; "square"; "right"; "round"]
     = Raise (TypeError "unknown corner type").
Proof.
  split.
  - apply (proj1 (make_round_rect_total fmt_fraction 0 0 20
                    "round" "right" "right" "round")).
    flags_valid.
  - apply (proj2 (make_round_rect_total fmt_fraction 0 0 20
                    "round" "square" "right" "round")).
    intros H. apply Forall_cons in H as [_ H].
    apply Forall_cons in H as [[Hbad | Hbad] _]; discriminate Hbad.
Defined.

(** ** Radon checkerboard *)

Lemma get_type_flags self x y :
  exists c0 c1 c2 c3,
    fst (_get_type self x y) = [c0; c1; c2; c3]
    /\ Forall valid_flag [c0; c1; c2; c3].
Proof.
  unfold _get_type.
  destruct (x =? 0), (y =? 0), (x =? cols self - 1), (y =? rows self - 1);
    simpl; do 4 eexists; (split; [reflexivity|]); flags_valid.
Qed.

Lemma radon_cell_run fmt self x y st :
  radon_cell fmt self x y st
  = (Val tt, add_prims (radon_cell_prims fmt self x y) st).
Proof.
  unfold radon_cell, radon_cell_prims.
  destruct (same_parity x y); [|by unfold ret; rewrite add_prims_nil].
  destruct (get_type_flags self x y) as (c0 & c1 & c2 & c3 & Hflags & Hvalid).
  destruct (_get_type self x y) as [corner_types is_inside].
  simpl in Hflags. subst corner_types. simpl.
  destruct is_inside; [done|].
  destruct (make_round_rect_valid fmt
    (inject_Z x * square_size self + board_xspacing self)
    (inject_Z y * square_size self + board_yspacing self)
    (square_size self) c0 c1 c2 c3 Hvalid) as [body Hbody].
  unfold bind, lift. by rewrite Hbody.
Qed.

Lemma elem_of_concat_fmap {A B} (f : A -> list B) (l : list A) a b :
  a ∈ l -> b ∈ f a -> b ∈ concat (f <$> l).
Proof.
  intros Ha Hb. induction Ha as [a l | a a' l Ha IH]; csimpl;
    apply elem_of_app; [by left | right; by apply IH].
Qed.

Lemma elem_of_range n i : i ∈ range n <-> 0 <= i < n.
Proof. unfold range. rewrite elem_of_seqZ. lia. Qed.

Lemma radon_dot_spec self xy :
  radon_dot self (radon_geometry self) xy = spec_overlay_dot self xy.
Proof.
  destruct xy as [x y].
  unfold radon_dot, spec_overlay_dot, spec_overlay_fill, same_parity. simpl.
  destruct (Z.eqb_spec (x mod 2) (y mod 2)), (decide (x mod 2 = y mod 2));
    done.
Qed.

(** The whole method: the grid pass, then one dot per listed pair. *)
Lemma radon_run fmt self st :
  make_radon_checkerboard_pattern fmt self st
  = (Val tt,
     add_prims
       (concat ((fun x => concat (radon_cell_prims fmt self x
                                    <$> range (rows self)))
                  <$> range (cols self))
        ++ match markers self with
           | None => []
           | Some ms => spec_overlay_dot self <$> ms
           end) st).
Proof.
  unfold make_radon_checkerboard_pattern, bind.
  rewrite (for_each_emits _ _
             (fun x => concat (radon_cell_prims fmt self x
                                 <$> range (rows self)))).
  - destruct (markers self) as [ms|].
    + rewrite (for_each_emits _ _ (fun xy => [spec_overlay_dot self xy])).
      * by rewrite add_prims_app, (concat_singletons (spec_overlay_dot self)).
      * intros xy st' _. unfold emit. by rewrite radon_dot_spec.
    + unfold ret. by rewrite app_nil_r.
  - intros x st' _. apply for_each_emits.
    intros y st'' _. apply radon_cell_run.
Qed.

Lemma get_type_interior self x y :
  0 < x < cols self - 1 -> 0 < y < rows self - 1 ->
  _get_type self x y = (["right"; "right"; "right"; "right"], true).
Proof.
  intros Hx Hy. unfold _get_type.
  destruct (Z.eqb_spec x 0); [lia|].
  destruct (Z.eqb_spec y 0); [lia|].
  destruct (Z.eqb_spec x (cols self - 1)); [lia|].
  destruct (Z.eqb_spec y (rows self - 1)); [lia|].
  done.
Qed.

Lemma get_type_grid_corners self :
  1 < cols self -> 1 < rows self ->
  _get_type self 0 0 = (["round"; "round"; "right"; "round"], false)
  /\ _get_type self (cols self - 1) 0
     = (["round"; "round"; "round"; "right"], false)
  /\ _get_type self (cols self - 1) (rows self - 1)
     = (["right"; "round"; "round"; "round"], false)
  /\ _get_type self 0 (rows self - 1)
     = (["round"; "right"; "round"; "round"], false).
Proof.
  intros Hc Hr. unfold _get_type. rewrite !Z.eqb_refl.
  destruct (Z.eqb_spec 0 (cols self - 1)); [lia|].
  destruct (Z.eqb_spec 0 (rows self - 1)); [lia|].
  destruct (Z.eqb_spec (cols self - 1) 0); [lia|].
  destruct (Z.eqb_spec (rows self - 1) 0); [lia|].
  done.
Qed.

Lemma get_type_single_column self x y :
  cols self = 1 -> 0 <= x < cols self ->
  fst (_get_type self x y) = ["round"; "round"; "round"; "round"].
Proof.
  intros Hc Hx. unfold _get_type. rewrite Hc.
  replace x with 0 by lia. simpl.
  by destruct (y =? 0), (y =? rows self - 1).
Qed.

Lemma get_type_single_row self x y :
  rows self = 1 -> 0 <= y < rows self ->
  fst (_get_type self x y) = ["round"; "round"; "round"; "round"].
Proof.
  intros Hr Hy. unfold _get_type. rewrite Hr.
  replace y with 0 by lia. simpl.
  by destruct (x =? 0), (x =? cols self - 1).
Qed.

Lemma radon_interior_rect fmt self x y :
  0 < x < cols self - 1 -> 0 < y < rows self - 1 ->
  x mod 2 = y mod 2 ->
  forall st, cell_rect self x y
             ∈ g (make_radon_checkerboard_pattern fmt self st).2.
Proof.
  intros Hx Hy Hpar st. rewrite radon_run. simpl.
  apply elem_of_app; right. apply elem_of_app; left.
  apply (elem_of_concat_fmap _ _ x); [apply elem_of_range; lia|].
  apply (elem_of_concat_fmap _ _ y); [apply elem_of_range; lia|].
  unfold radon_cell_prims, same_parity.
  rewrite (proj2 (Z.eqb_eq _ _) Hpar), get_type_interior by done.
  simpl. apply list_elem_of_here.
Qed.

(** C2, as the source computes it: on a 5 x 5 board the flags of cell (0,0)
    are round, round, right, round; three corners are rounded, and the
    top-right one is not square. *)
Lemma radon_corner_cell_three_rounded :
  fst (_get_type board_5x5 0 0) = ["round"; "round"; "right"; "round"]
  /\ fst (_get_type board_5x5 0 0) <> ["round"; "right"; "right"; "round"]
  /\ length (filter (fun c => c = "round") (fst (_get_type board_5x5 0 0)))
     = 3%nat.
Proof. split; [reflexivity|]. split; [discriminate | reflexivity]. Qed.

(** C2 (amended).  In the Radon checkerboard a cell on two adjacent board
    edges (a corner of a grid with at least two columns and two rows) gets
    three corners rounded, all but the one diagonally opposite the grid's
    corner; on a 5 x 5 board cell (0,0) gets the flags top-left round,
    top-right round, bottom-right right (square), bottom-left round.  Interior
    cells keep four square corners, and an interior filled cell, such as
    (2,2) on the 5 x 5 board, is drawn as the plain rectangle.  On a board of
    one column or one row every cell gets all four corners rounded. *)
Theorem radon_corner_flags (fmt : Q -> string) (self : PatternMaker) :
  (1 < cols self -> 1 < rows self ->
   _get_type self 0 0 = (["round"; "round"; "right"; "round"], false)
   /\ _get_type self (cols self - 1) 0
      = (["round"; "round"; "round"; "right"], false)
   /\ _get_type self (cols self - 1) (rows self - 1)
      = (["right"; "round"; "round"; "round"], false)
   /\ _get_type self 0 (rows self - 1)
      = (["round"; "right"; "round"; "round"], false))
  /\ (forall x y,
        0 < x < cols self - 1 -> 0 < y < rows self - 1 ->
        _get_type self x y = (["right"; "right"; "right"; "right"], true)
        /\ (x mod 2 = y mod 2 ->
            forall st,
              cell_rect self x y
              ∈ g (make_radon_checkerboard_pattern fmt self st).2))
  /\ (cols self = 5 -> rows self = 5 ->
      fst (_get_type self 0 0) = ["round"; "round"; "right"; "round"]
      /\ forall st,
           cell_rect self 2 2
           ∈ g (make_radon_checkerboard_pattern fmt self st).2)
  /\ (cols self = 1 \/ rows self = 1 ->
      forall x y, 0 <= x < cols self -> 0 <= y < rows self ->
        fst (_get_type self x y) = ["round"; "round"; "round"; "round"]).
Proof.
  split; [apply get_type_grid_corners|].
  split.
  { intros x y Hx Hy. split; [by apply get_type_interior|].
    intros Hpar st. by apply radon_interior_rect. }
  split.
  { intros Hc Hr. split.
    - destruct (get_type_grid_corners self) as [-> _]; [lia..|done].
    - intros st. apply radon_interior_rect; [lia..|done]. }
  intros [Hc | Hr] x y Hx Hy.
  - by apply get_type_single_column.
  - by apply get_type_single_row.
Qed.

Lemma radon_corner_flags_witness :
  fst (_get_type board_5x5 0 0) = ["round"; "round"; "right"; "round"]
  /\ cell_rect board_5x5 2 2
     ∈ g (make_radon_checkerboard_pattern fmt_fraction board_5x5 init_store).2.
Proof.
  destruct (radon_corner_flags fmt_fraction board_5x5)
    as (_ & _ & Hscenario & _).
  destruct Hscenario as [Hflags Hrect]; [reflexivity..|].
  split; [exact Hflags | apply Hrect].
Defined.

(** C6.  When a marker list is supplied, [make_radon_checkerboard_pattern]
    returns with the group holding what it held before, then the primitives
    of the grid pass, then one dot per listed pair (x, y) in order, whether
    or not the pair lies inside the grid: a circle of radius
    squareSize * 0.17 centred by the circle grid's formula with that radius
    (both in exact arithmetic), filled white when x mod 2 = y mod 2 and
    black otherwise; and those white cells are exactly the cells for which
    the grid pass draws a primitive. *)
Theorem radon_overlay_dots (fmt : Q -> string) (self : PatternMaker)
    (st : Store) (ms : list (Z * Z)) :
  markers self = Some ms ->
  exists cells,
    make_radon_checkerboard_pattern fmt self st
    = (Val tt, add_prims (cells ++ (spec_overlay_dot self <$> ms)) st)
    /\ g (make_radon_checkerboard_pattern fmt self st).2
       = g st ++ cells ++ (spec_overlay_dot self <$> ms)
    /\ cells = concat ((fun x => concat (radon_cell_prims fmt self x
                                           <$> range (rows self)))
                         <$> range (cols self))
    /\ forall x y, spec_overlay_fill x y = "white"
                   <-> radon_cell_prims fmt self x y <> [].
Proof.
  intros Hms. eexists. split; [|split; [|split; [reflexivity|]]].
  - rewrite radon_run, Hms. reflexivity.
  - rewrite radon_run, Hms. reflexivity.
  - intros x y. unfold spec_overlay_fill, radon_cell_prims, same_parity.
    destruct (Z.eqb_spec (x mod 2) (y mod 2)) as [Heq|Hne];
      destruct (decide (x mod 2 = y mod 2)); try done.
    destruct (get_type_flags self x y) as (c0 & c1 & c2 & c3 & -> & Hvalid).
    destruct (snd (_get_type self x y)); [done|].
    destruct (make_round_rect_valid fmt
      (inject_Z x * square_size self + board_xspacing self)
      (inject_Z y * square_size self + board_yspacing self)
      (square_size self) c0 c1 c2 c3 Hvalid) as [body ->].
    done.
Qed.

Lemma radon_overlay_dots_witness :
  exists cells,
    make_radon_checkerboard_pattern fmt_fraction board_5x5 init_store
    = (Val tt,
       add_prims (cells ++ [spec_overlay_dot board_5x5 (0, 0);
                            spec_overlay_dot board_5x5 (7, -1)]) init_store)
    /\ g (make_radon_checkerboard_pattern fmt_fraction board_5x5
            init_store).2
       = cells ++ [spec_overlay_dot board_5x5 (0, 0);
                   spec_overlay_dot board_5x5 (7, -1)]
    /\ length cells = 13%nat.
Proof.
  destruct (radon_overlay_dots fmt_fraction board_5x5 init_store
              [(0, 0); (7, -1)] eq_refl) as (cells & Hrun & Hg & Hcells & _).
  exists cells. split; [exact Hrun|]. split; [exact Hg|].
  rewrite Hcells. reflexivity.
Defined.

(** ** Marker bit grids *)

(** The invariant rule for a [range] loop without effects on the store. *)
Lemma res_fold_seqZ_inv {St} (I : Z -> St -> Prop) (body : Z -> St -> Res St)
    (k : nat) :
  forall (m : Z) (s : St),
    I m s ->
    (forall i s, m <= i < m + Z.of_nat k -> I i s ->
       exists s', body i s = Val s' /\ I (i + 1) s') ->
    exists s', res_fold (seqZ m (Z.of_nat k)) body s = Val s'
               /\ I (m + Z.of_nat k) s'.
Proof.
  induction k as [|k IH]; intros m s Hinit Hstep.
  - exists s. split; [done|]. by replace (m + Z.of_nat 0) with m by lia.
  - rewrite seqZ_cons by lia. simpl.
    destruct (Hstep m s) as (s1 & -> & H1); [lia | done |]. simpl.
    replace (Z.pred (Z.of_nat (S k))) with (Z.of_nat k) by lia.
    destruct (IH (Z.succ m) s1) as (s2 & Hrun & H2).
    + by replace (Z.succ m) with (m + 1) by lia.
    + intros i s' Hi. apply Hstep. lia.
    + exists s2. split; [done|].
      by replace (m + Z.of_nat (S k)) with (Z.succ m + Z.of_nat k) by lia.
Qed.

Lemma res_fold_range_inv {St} (I : Z -> St -> Prop) (body : Z -> St -> Res St)
    (n : Z) (s : St) :
  0 <= n ->
  I 0 s ->
  (forall i s, 0 <= i < n -> I i s ->
     exists s', body i s = Val s' /\ I (i + 1) s') ->
  exists s', res_fold (range n) body s = Val s' /\ I n s'.
Proof.
  intros Hn Hinit Hstep. unfold range.
  destruct (res_fold_seqZ_inv I body (Z.to_nat n) 0 s Hinit) as (s' & Hrun & Hs').
  - intros i s' Hi. apply Hstep. lia.
  - exists s'. rewrite Z2Nat.id in * by done. by rewrite Z.add_0_l in Hs'.
Qed.

Lemma square_grid_zeros N : square_grid N (zeros N).
Proof.
  unfold square_grid, zeros. split; [apply length_replicate|].
  apply Forall_replicate, length_replicate.
Qed.

Lemma grid_at_zeros N r c :
  (r < N)%nat -> (c < N)%nat -> grid_at (zeros N) r c = Some 0.
Proof.
  intros Hr Hc. unfold grid_at, zeros.
  rewrite lookup_replicate_2 by done. simpl.
  by rewrite lookup_replicate_2.
Qed.

Lemma square_grid_set_bit N i j v grid :
  square_grid N grid -> square_grid N (set_bit i j v grid).
Proof.
  intros [Hlen Hrows]. unfold square_grid, set_bit.
  split; [by rewrite length_alter|].
  apply Forall_alter; [done|].
  intros row _ Hrow. by rewrite length_insert.
Qed.

(** A write changes the cell one down and one right of (i, j), and no
    other. *)
Lemma grid_at_set_bit N i j v grid r c :
  square_grid N grid -> (Z.to_nat (1 + i) < N)%nat ->
  (Z.to_nat (1 + j) < N)%nat ->
  grid_at (set_bit i j v grid) r c
  = if decide (r = Z.to_nat (1 + i) /\ c = Z.to_nat (1 + j))
    then Some v else grid_at grid r c.
Proof.
  intros [Hlen Hrows] Hi Hj. unfold grid_at, set_bit.
  destruct (decide (r = Z.to_nat (1 + i))) as [->|Hr].
  - rewrite list_lookup_alter_eq.
    destruct (lookup_lt_is_Some_2 grid (Z.to_nat (1 + i))) as [row Hrow];
      [lia|].
    rewrite Hrow. simpl.
    assert (length row = N) as Hrowlen.
    { rewrite Forall_forall in Hrows. apply Hrows.
      by eapply list_elem_of_lookup_2. }
    destruct (decide (c = Z.to_nat (1 + j))) as [->|Hc].
    + rewrite decide_True by done. apply list_lookup_insert_eq. lia.
    + rewrite decide_False by (intros [_ ?]; done).
      by rewrite list_lookup_insert_ne.
  - rewrite list_lookup_alter_ne by done.
    rewrite decide_False by (intros [? _]; done). done.
Qed.

Section MarkerBits.

Variable n : Z.
Variable byteList : list Z.
Hypothesis Hn : 0 <= n.
Hypothesis Hlen : (Z.to_nat (n * n) <= length byteList)%nat.

Lemma marker_inv_init :
  marker_inv n byteList 0 0 (zeros (Z.to_nat (n + 2))).
Proof.
  split; [apply square_grid_zeros|].
  intros r c Hr Hc. rewrite grid_at_zeros by done. f_equal.
  unfold partial_cell. case_decide; [lia | done].
Qed.

Lemma marker_inv_write i j v grid :
  0 <= i < n -> 0 <= j < n ->
  byteList !! Z.to_nat (i * n + j) = Some v ->
  marker_inv n byteList i j grid ->
  marker_inv n byteList i (j + 1) (set_bit i j v grid).
Proof.
  intros Hi Hj Hv [Hsq Hcells].
  split; [by apply square_grid_set_bit|].
  intros r c Hr Hc.
  rewrite (grid_at_set_bit (Z.to_nat (n + 2))) by (done || lia).
  case_decide as Hrc.
  - destruct Hrc as [-> ->]. f_equal. unfold partial_cell.
    rewrite decide_True by lia.
    replace ((Z.of_nat (Z.to_nat (1 + i)) - 1) * n
             + (Z.of_nat (Z.to_nat (1 + j)) - 1)) with (i * n + j) by lia.
    by rewrite Hv.
  - rewrite Hcells by done. f_equal. unfold partial_cell.
    repeat case_decide; (done || lia).
Qed.

Lemma marker_inv_next_row i grid :
  marker_inv n byteList i n grid -> marker_inv n byteList (i + 1) 0 grid.
Proof.
  intros [Hsq Hcells]. split; [done|].
  intros r c Hr Hc. rewrite Hcells by done. f_equal. unfold partial_cell.
  repeat case_decide; (done || lia).
Qed.

Lemma byteList_bit i j :
  0 <= i < n -> 0 <= j < n ->
  is_Some (byteList !! Z.to_nat (i * n + j)).
Proof.
  intros Hi Hj. apply lookup_lt_is_Some_2.
  assert (i * n + j < n * n) by nia. lia.
Qed.

(** The loops run to the end and leave every bit in place. *)
Lemma create_marker_bits_inv :
  exists marker,
    _create_marker_bits n byteList = Val marker
    /\ marker_inv n byteList n 0 marker.
Proof.
  unfold _create_marker_bits.
  destruct (Z.ltb_spec (n + 2) 0) as [?|_]; [lia|].
  apply (res_fold_range_inv (fun i grid => marker_inv n byteList i 0 grid));
    [done | apply marker_inv_init |].
  intros i grid Hi Hinv.
  destruct (res_fold_range_inv
              (fun j grid => marker_inv n byteList i j grid)
              (fun j marker =>
                 match byteList !! Z.to_nat (i * n + j) with
                 | Some v => Val (set_bit i j v marker)
                 | None => Raise IndexError
                 end) n grid) as (grid' & Hrun & Hinv'); [done | done | |].
  - intros j grid1 Hj Hinv1.
    destruct (byteList_bit i j) as [v Hv]; [done..|].
    rewrite Hv. eexists. split; [reflexivity|].
    by apply marker_inv_write.
  - exists grid'. split; [done|]. by apply marker_inv_next_row.
Qed.

End MarkerBits.

(** C5.  For [bitsPerSide >= 1] and a bit sequence of length
    [bitsPerSide * bitsPerSide], [_create_marker_bits] returns a grid of
    [bitsPerSide + 2] rows of [bitsPerSide + 2] cells whose outer ring (row 0,
    row [bitsPerSide + 1], column 0, column [bitsPerSide + 1]) is 0
    everywhere and whose cell (1 + i, 1 + j) holds bit
    [i * bitsPerSide + j] of the sequence, for [0 <= i, j < bitsPerSide]. *)
Theorem create_marker_bits_grid (n : Z) (byteList : list Z) :
  1 <= n ->
  length byteList = Z.to_nat (n * n) ->
  exists marker,
    _create_marker_bits n byteList = Val marker
    /\ square_grid (Z.to_nat (n + 2)) marker
    /\ (forall k, (k <= Z.to_nat (n + 1))%nat ->
          grid_at marker 0 k = Some 0
          /\ grid_at marker (Z.to_nat (n + 1)) k = Some 0
          /\ grid_at marker k 0 = Some 0
          /\ grid_at marker k (Z.to_nat (n + 1)) = Some 0)
    /\ (forall i j, 0 <= i < n -> 0 <= j < n ->
          grid_at marker (Z.to_nat (1 + i)) (Z.to_nat (1 + j))
          = byteList !! Z.to_nat (i * n + j)).
Proof.
  intros Hn Hlen.
  destruct (create_marker_bits_inv n byteList) as (marker & Hrun & Hsq & Hcells);
    [lia | lia |].
  exists marker. split; [done|]. split; [done|]. split.
  - intros k Hk.
    rewrite !Hcells by lia. unfold partial_cell.
    repeat split; f_equal; case_decide; (done || lia).
  - intros i j Hi Hj. rewrite Hcells by lia. unfold partial_cell.
    rewrite decide_True by lia.
    replace ((Z.of_nat (Z.to_nat (1 + i)) - 1) * n
             + (Z.of_nat (Z.to_nat (1 + j)) - 1)) with (i * n + j) by lia.
    destruct (byteList_bit n byteList) with (i := i) (j := j) as [v ->];
      (done || lia).
Qed.

Lemma create_marker_bits_grid_witness :
  exists marker,
    _create_marker_bits 2 [1; 0; 1; 1] = Val marker
    /\ grid_at marker 0 3 = Some 0
    /\ grid_at marker 2 1 = Some 1.
Proof.
  destruct (create_marker_bits_grid 2 [1; 0; 1; 1])
    as (marker & Hrun & _ & Hring & Hbits); [lia | reflexivity |].
  exists marker. split; [exact Hrun|]. split.
  - apply (Hring 3%nat). simpl. lia.
  - apply (Hbits 1 0); lia.
Defined.

(** ** Marker board: the validation checks *)

Lemma quiet_ret {A} (a : A) : quiet (ret a).
Proof. by intros st. Qed.

Lemma quiet_lift {A} (r : Res A) : quiet (lift r).
Proof. by intros st. Qed.

Lemma quiet_emit p : quiet (emit p).
Proof. by intros st. Qed.

Lemma quiet_bind {A B} (m : M A) (k : A -> M B) :
  quiet m -> (forall a, quiet (k a)) -> quiet (bind m k).
Proof.
  intros Hm Hk st. unfold bind.
  destruct (Hm st) as (H1 & H2 & H3).
  destruct (m st) as [[a|e] st1]; simpl in *; [|done].
  destruct (Hk a st1) as (K1 & K2 & K3).
  by rewrite K1, K2, K3.
Qed.

Lemma quiet_for_each {A} (l : list A) (body : A -> M unit) :
  (forall a, quiet (body a)) -> quiet (for_each l body).
Proof.
  intros Hbody. induction l as [|a l IH]; simpl.
  - apply quiet_ret.
  - apply quiet_bind; [apply Hbody | by intros _].
Qed.

Lemma quiet_for_fold {A St} (l : list A) (body : A -> St -> M St) :
  (forall a s, quiet (body a s)) -> forall s, quiet (for_fold l body s).
Proof.
  intros Hbody. induction l as [|a l IH]; intros s; simpl.
  - apply quiet_ret.
  - apply quiet_bind; [apply Hbody | apply IH].
Qed.

Lemma quiet_charuco_cell self dictionary geo y x marker_id :
  quiet (charuco_cell self dictionary geo y x marker_id).
Proof.
  unfold charuco_cell. destruct (same_parity x y).
  - apply quiet_bind; [apply quiet_emit | intros _; apply quiet_ret].
  - apply quiet_bind; [apply quiet_lift | intros byteList].
    apply quiet_bind; [apply quiet_lift | intros img_mark].
    apply quiet_bind; [apply quiet_emit | intros _].
    apply quiet_bind; [apply quiet_lift | intros w].
    apply quiet_bind; [|intros _; apply quiet_ret].
    apply quiet_for_each; intros x_. apply quiet_for_each; intros y_.
    apply quiet_bind; [apply quiet_lift | intros v].
    destruct (v =? 0); [apply quiet_ret | apply quiet_emit].
Qed.

Lemma quiet_charuco_grid self dictionary geo :
  quiet (_ <- for_fold (range (rows self)) (fun y marker_id =>
                for_fold (range (cols self))
                         (charuco_cell self dictionary geo y) marker_id) 0 ;;
         ret tt)%py.
Proof.
  apply quiet_bind; [|intros _; apply quiet_ret].
  apply quiet_for_fold; intros y id.
  apply quiet_for_fold; intros x id'. apply quiet_charuco_cell.
Qed.

Lemma app_singleton_neq {A} (l : list A) (a b : A) :
  a <> b -> l ++ [a] <> l ++ [b].
Proof. intros Hab Heq. apply app_inv_head in Heq. congruence. Qed.

Lemma app_singleton_neq_nil {A} (l : list A) (a : A) : l <> l ++ [a].
Proof.
  intros Heq. apply (f_equal length) in Heq.
  rewrite length_app in Heq. simpl in Heq. lia.
Qed.

Lemma charuco_too_large fs self st :
  (square_size self < aruco_marker_size self)%Q ->
  make_charuco_board fs self st = (Val tt, printed MarkerTooLarge st).
Proof.
  intros Hbig. unfold make_charuco_board.
  destruct (Qlt_le_dec _ _) as [_|Hfit]; [done|].
  by apply Qle_not_lt in Hfit.
Qed.

Lemma charuco_load_error fs self st e :
  (aruco_marker_size self <= square_size self)%Q ->
  fs (dict_file self) = Raise e ->
  make_charuco_board fs self st = (Raise e, st).
Proof.
  intros Hfit Hfs. unfold make_charuco_board.
  destruct (Qlt_le_dec _ _) as [Hbig|_]; [by apply Qle_not_lt in Hfit|].
  unfold bind, lift. by rewrite Hfs.
Qed.

Lemma charuco_too_few fs self st d :
  (aruco_marker_size self <= square_size self)%Q ->
  fs (dict_file self) = Val d ->
  nmarkers d < markers_needed self ->
  make_charuco_board fs self st = (Val tt, printed InsufficientMarkers st).
Proof.
  intros Hfit Hfs Hfew. unfold make_charuco_board.
  destruct (Qlt_le_dec _ _) as [Hbig|_]; [by apply Qle_not_lt in Hfit|].
  unfold bind, lift. rewrite Hfs.
  destruct (Z.ltb_spec (nmarkers d) (markers_needed self)); [done | lia].
Qed.

Lemma charuco_proceeds fs self st d :
  (aruco_marker_size self <= square_size self)%Q ->
  fs (dict_file self) = Val d ->
  markers_needed self <= nmarkers d ->
  make_charuco_board fs self st = charuco_draw self d st.
Proof.
  intros Hfit Hfs Hok. unfold make_charuco_board.
  destruct (Qlt_le_dec _ _) as [Hbig|_]; [by apply Qle_not_lt in Hfit|].
  unfold bind, lift. rewrite Hfs.
  destruct (Z.ltb_spec (nmarkers d) (markers_needed self)); [lia | done].
Qed.

Lemma stdout_bind_quiet {A B} (m : M A) (k : A -> M B) st :
  (forall a, quiet (k a)) ->
  stdout (bind m k st).2 = stdout (m st).2.
Proof.
  intros Hk. unfold bind. destruct (m st) as [[a|e] st1]; simpl; [|done].
  apply Hk.
Qed.

(** Drawing prints at most the narrow-border warning. *)
Lemma charuco_draw_stdout self d st :
  exists warn,
    stdout (charuco_draw self d st).2 = stdout st ++ warn
    /\ (warn = [] \/ exists b s, warn = [NarrowBorder b s]).
Proof.
  unfold charuco_draw. unfold bind at 1, lift at 1.
  destruct (pydiv _ _) as [side|e].
  - rewrite stdout_bind_quiet.
    + destruct (Qlt_le_dec _ _); simpl.
      * eexists. split; [reflexivity|]. right. by do 2 eexists.
      * exists []. split; [by rewrite app_nil_r | by left].
    + intros _. apply quiet_charuco_grid.
  - exists []. split; [by rewrite app_nil_r | by left].
Qed.

(** The four ways a call of [make_charuco_board] can go. *)
Lemma charuco_cases fs self st :
  ((square_size self < aruco_marker_size self)%Q
   /\ make_charuco_board fs self st = (Val tt, printed MarkerTooLarge st))
  \/ ((aruco_marker_size self <= square_size self)%Q
      /\ exists e, fs (dict_file self) = Raise e
                   /\ make_charuco_board fs self st = (Raise e, st))
  \/ ((aruco_marker_size self <= square_size self)%Q
      /\ exists d, fs (dict_file self) = Val d
                   /\ nmarkers d < markers_needed self
                   /\ make_charuco_board fs self st
                      = (Val tt, printed InsufficientMarkers st))
  \/ ((aruco_marker_size self <= square_size self)%Q
      /\ exists d, fs (dict_file self) = Val d
                   /\ markers_needed self <= nmarkers d
                   /\ make_charuco_board fs self st = charuco_draw self d st).
Proof.
  destruct (Qlt_le_dec (square_size self) (aruco_marker_size self))
    as [Hbig|Hfit]; [left; split; [done | by apply charuco_too_large]|].
  right. destruct (fs (dict_file self)) as [d|e] eqn:Hfs.
  - right. destruct (Z.lt_ge_cases (nmarkers d) (markers_needed self)).
    + left. split; [done|]. exists d.
      split; [done|]. split; [done|]. by eapply charuco_too_few.
    + right. split; [done|]. exists d.
      split; [done|]. split; [done|]. by apply charuco_proceeds.
  - left. split; [done|]. exists e. split; [done|].
    by apply charuco_load_error.
Qed.

Lemma charuco_draw_no_error self d st m :
  m = MarkerTooLarge \/ m = InsufficientMarkers ->
  stdout (charuco_draw self d st).2 <> stdout st ++ [m].
Proof.
  intros Hm Heq.
  destruct (charuco_draw_stdout self d st) as (warn & Hout & Hwarn).
  rewrite Hout in Heq. apply app_inv_head in Heq. subst warn.
  destruct Hwarn as [?|(b & s & ?)], Hm; congruence.
Qed.

(** C8.  A call of [make_charuco_board] that fails a validation check, the
    marker being larger than the square or the dictionary holding too few
    markers, returns after printing its error with the primitive group and
    the drawing exactly as they were; and whenever a call has printed one of
    the two errors, the group and the drawing are as before the call. *)
Theorem charuco_validation_keeps_group (fs : FileSystem)
    (self : PatternMaker) (st : Store) :
  ((square_size self < aruco_marker_size self)%Q ->
   make_charuco_board fs self st = (Val tt, printed MarkerTooLarge st))
  /\ (forall d,
        (aruco_marker_size self <= square_size self)%Q ->
        fs (dict_file self) = Val d ->
        nmarkers d < markers_needed self ->
        make_charuco_board fs self st
        = (Val tt, printed InsufficientMarkers st))
  /\ (forall m,
        m = MarkerTooLarge \/ m = InsufficientMarkers ->
        stdout (make_charuco_board fs self st).2 = stdout st ++ [m] ->
        g (make_charuco_board fs self st).2 = g st
        /\ dwg (make_charuco_board fs self st).2 = dwg st).
Proof.
  split; [apply charuco_too_large|].
  split; [intros d; apply charuco_too_few|].
  intros m Hm Hout.
  destruct (charuco_cases fs self st)
    as [[_ Hrun] | [(_ & e & _ & Hrun) | [(_ & d & _ & _ & Hrun)
                                          | (_ & d & _ & _ & Hrun)]]];
    rewrite Hrun in *; try done.
  by apply charuco_draw_no_error in Hout.
Qed.

Lemma charuco_validation_keeps_group_witness :
  g (make_charuco_board fs_12
       {| cols := 5; rows := 5; units := "mm";
          square_size := 20; radius_rate := 5; width := 210; height := 297;
          markers := None; aruco_marker_size := 25;
          dict_file := "DICT_ARUCO_ORIGINAL.json" |} init_store).2 = [].
Proof.
  rewrite (proj1 (charuco_validation_keeps_group fs_12 _ init_store)).
  - reflexivity.
  - reflexivity.
Defined.

(** C3, as the source checks it: with the marker exactly as large as the
    square (20 and 20, on the 5 x 5 board) the call prints no error and
    draws the board. *)
Lemma charuco_equal_sizes_pass :
  exists st',
    make_charuco_board fs_12 board_5x5 init_store = (Val tt, st')
    /\ aruco_marker_size board_5x5 = square_size board_5x5
    /\ (MarkerTooLarge ∉ stdout st')
    /\ length (g st') = 37%nat.
Proof.
  eexists. split; [vm_compute; reflexivity|].
  split; [reflexivity|]. split; [|reflexivity].
  intros Hin. apply list_elem_of_In in Hin. simpl in Hin.
  by destruct Hin as [?|[]].
Qed.

(** C3 (amended).  [make_charuco_board] is stopped by the marker-size check
    exactly when the marker size is strictly larger than the square size; it
    then prints the error and returns without emitting a primitive.  A marker
    exactly as large as the square passes the check, as does any smaller
    one. *)
Theorem charuco_marker_size_check (fs : FileSystem) (self : PatternMaker)
    (st : Store) :
  (stdout (make_charuco_board fs self st).2 = stdout st ++ [MarkerTooLarge]
   <-> (square_size self < aruco_marker_size self)%Q)
  /\ ((square_size self < aruco_marker_size self)%Q ->
      make_charuco_board fs self st = (Val tt, printed MarkerTooLarge st))
  /\ ((aruco_marker_size self == square_size self)%Q ->
      stdout (make_charuco_board fs self st).2
      <> stdout st ++ [MarkerTooLarge])
  /\ ((aruco_marker_size self < square_size self)%Q ->
      stdout (make_charuco_board fs self st).2
      <> stdout st ++ [MarkerTooLarge]).
Proof.
  assert (stdout (make_charuco_board fs self st).2
          = stdout st ++ [MarkerTooLarge]
          <-> (square_size self < aruco_marker_size self)%Q) as Hiff.
  { split.
    - intros Hout.
      destruct (charuco_cases fs self st)
        as [[Hbig _] | [(_ & e & _ & Hrun) | [(_ & d & _ & _ & Hrun)
                                              | (_ & d & _ & _ & Hrun)]]];
        [done | rewrite Hrun in Hout..]; simpl in Hout.
      + by apply app_singleton_neq_nil in Hout.
      + by apply app_singleton_neq in Hout.
      + apply charuco_draw_no_error in Hout; [done | by left].
    - intros Hbig. by rewrite charuco_too_large. }
  split; [exact Hiff|].
  split; [apply charuco_too_large|].
  split.
  - intros Heq Hout. apply Hiff in Hout. rewrite Heq in Hout.
    by apply Qlt_irrefl in Hout.
  - intros Hlt Hout. apply Hiff in Hout.
    exact (Qlt_irrefl _ (Qlt_trans _ _ _ Hout Hlt)).
Qed.

Lemma charuco_marker_size_check_witness :
  stdout (make_charuco_board fs_12 board_5x5 init_store).2
  <> stdout init_store ++ [MarkerTooLarge].
Proof.
  destruct (charuco_marker_size_check fs_12 board_5x5 init_store)
    as (_ & _ & Hequal & _).
  apply Hequal. reflexivity.
Defined.

(** ** Serialisation *)

Lemma tostring_groups st n :
  dwg st = Defs :: replicate n GroupRef ->
  tostring st = RDefs :: replicate n (RGroup (g st)).
Proof.
  intros Hdwg. unfold tostring. rewrite Hdwg. simpl. f_equal.
  clear Hdwg. induction n as [|n IH]; simpl; [done | by f_equal].
Qed.

(** One serialising call adds the group once more and produces the drawing
    with all the copies added so far. *)
Lemma produced_step self c st n :
  dwg st = Defs :: replicate n GroupRef ->
  exists st',
    produced self c st = (Val (RDefs :: replicate (S n) (RGroup (g st))), st')
    /\ g st' = g st
    /\ dwg st' = Defs :: replicate (S n) GroupRef.
Proof.
  intros Hdwg.
  assert (dwg st ++ [GroupRef] = Defs :: replicate (S n) GroupRef) as Hadd.
  { rewrite Hdwg, replicate_S_end. done. }
  set (st1 := {| g := g st; dwg := dwg st ++ [GroupRef];
                 stdout := stdout st; output_file := output_file st |}).
  assert (tostring st1 = RDefs :: replicate (S n) (RGroup (g st))) as Hdoc.
  { by apply (tostring_groups st1). }
  destruct c; unfold produced, get_svg_string, save, bind, dwg_add_g; simpl;
    fold st1.
  - exists st1. by rewrite Hdoc.
  - eexists. rewrite Hdoc. split; [reflexivity|]. by split.
Qed.

Lemma produced_all_copies self cs :
  forall st n,
    dwg st = Defs :: replicate n GroupRef ->
    exists docs st',
      produced_all self cs st = (Val docs, st')
      /\ g st' = g st
      /\ length docs = length cs
      /\ forall i, (i < length cs)%nat ->
           docs !! i = Some (RDefs :: replicate (n + S i) (RGroup (g st))).
Proof.
  induction cs as [|c cs IH]; intros st n Hdwg; simpl.
  - exists [], st. split; [done|]. split; [done|]. split; [done|].
    intros i Hi. simpl in Hi. lia.
  - destruct (produced_step self c st n Hdwg) as (st1 & Hrun1 & Hg1 & Hdwg1).
    destruct (IH st1 (S n) Hdwg1) as (docs & st2 & Hrun2 & Hg2 & Hlen & Hdocs).
    exists ((RDefs :: replicate (S n) (RGroup (g st))) :: docs), st2.
    unfold bind. rewrite Hrun1, Hrun2. simpl.
    split; [done|]. split; [congruence|]. split; [by rewrite Hlen|].
    intros [|i] Hi; simpl.
    + by replace (n + 1)%nat with (S n) by lia.
    + rewrite Hdocs by lia. rewrite Hg1.
      by replace (S n + S i)%nat with (n + S (S i))%nat by lia.
Qed.

(** C9.  Serialising is not idempotent: on a drawing that holds only its
    [<defs>], as it does after [__init__] and any of the pattern methods, a
    sequence of calls of [get_svg_string] or [save] all return, leave the
    primitive group as it is, and the k-th of them produces a document with
    k copies of the whole group; the second one already holds every
    primitive twice. *)
Theorem serialization_duplicates_group (self : PatternMaker)
    (cs : list Serializer) (st : Store) :
  dwg st = [Defs] ->
  exists docs st',
    produced_all self cs st = (Val docs, st')
    /\ g st' = g st
    /\ length docs = length cs
    /\ forall k, (1 <= k <= length cs)%nat ->
         docs !! (k - 1)%nat
         = Some (RDefs :: replicate k (RGroup (g st))).
Proof.
  intros Hdwg.
  destruct (produced_all_copies self cs st 0%nat Hdwg)
    as (docs & st' & Hrun & Hg & Hlen & Hdocs).
  exists docs, st'. split; [done|]. split; [done|]. split; [done|].
  intros k Hk. rewrite Hdocs by lia. do 2 f_equal. f_equal. lia.
Qed.

Lemma serialization_duplicates_group_witness :
  exists docs st',
    produced_all default_board [GetSvgString; Save]
      (make_circles_pattern default_board init_store).2 = (Val docs, st')
    /\ docs !! 1%nat
       = Some [RDefs;
               RGroup (g (make_circles_pattern default_board init_store).2);
               RGroup (g (make_circles_pattern default_board init_store).2)].
Proof.
  destruct (serialization_duplicates_group default_board [GetSvgString; Save]
              (make_circles_pattern default_board init_store).2)
    as (docs & st' & Hrun & _ & _ & Hdocs).
  - reflexivity.
  - exists docs, st'. split; [exact Hrun|].
    apply (Hdocs 2%nat). simpl. lia.
Defined.

(** ** Marker board: drawing *)

(** The invariant rule for a [range] loop that threads a local. *)
Lemma for_fold_seqZ_inv {St} (I : Z -> St -> Store -> Prop)
    (body : Z -> St -> M St) (k : nat) :
  forall (m : Z) (s : St) (st : Store),
    I m s st ->
    (forall i s st, m <= i < m + Z.of_nat k -> I i s st ->
       exists s' st', body i s st = (Val s', st') /\ I (i + 1) s' st') ->
    exists s' st', for_fold (seqZ m (Z.of_nat k)) body s st = (Val s', st')
                   /\ I (m + Z.of_nat k) s' st'.
Proof.
  induction k as [|k IH]; intros m s st Hinit Hstep.
  - exists s, st. split; [done|]. by replace (m + Z.of_nat 0) with m by lia.
  - rewrite seqZ_cons by lia. simpl. unfold bind.
    destruct (Hstep m s st) as (s1 & st1 & -> & H1); [lia | done |].
    replace (Z.pred (Z.of_nat (S k))) with (Z.of_nat k) by lia.
    destruct (IH (Z.succ m) s1 st1) as (s2 & st2 & Hrun & H2).
    + by replace (Z.succ m) with (m + 1) by lia.
    + intros i s' st' Hi. apply Hstep. lia.
    + exists s2, st2. split; [done|].
      by replace (m + Z.of_nat (S k)) with (Z.succ m + Z.of_nat k) by lia.
Qed.

Lemma for_fold_range_inv {St} (I : Z -> St -> Store -> Prop)
    (body : Z -> St -> M St) (n : Z) (s : St) (st : Store) :
  0 <= n ->
  I 0 s st ->
  (forall i s st, 0 <= i < n -> I i s st ->
     exists s' st', body i s st = (Val s', st') /\ I (i + 1) s' st') ->
  exists s' st', for_fold (range n) body s st = (Val s', st') /\ I n s' st'.
Proof.
  intros Hn Hinit Hstep. unfold range.
  destruct (for_fold_seqZ_inv I body (Z.to_nat n) 0 s st Hinit)
    as (s' & st' & Hrun & Hs').
  - intros i s1 st1 Hi. apply Hstep. lia.
  - exists s', st'. rewrite Z2Nat.id in * by done.
    by rewrite Z.add_0_l in Hs'.
Qed.

Lemma range_succ n : 0 <= n -> range (n + 1) = range n ++ [n].
Proof.
  intros Hn. unfold range. rewrite seqZ_app by lia. f_equal.
Qed.

Lemma concat_fmap_range_succ {B} (f : Z -> list B) n :
  0 <= n ->
  concat (f <$> range (n + 1)) = concat (f <$> range n) ++ f n.
Proof.
  intros Hn. rewrite range_succ, fmap_app, concat_app by done.
  simpl. by rewrite app_nil_r.
Qed.

Lemma grid_get_square N img y_ x_ :
  square_grid N img -> 0 <= y_ < Z.of_nat N -> 0 <= x_ < Z.of_nat N ->
  exists v, grid_get img y_ x_ = Val v.
Proof.
  intros [Hlen Hrows] Hy Hx. unfold grid_get.
  destruct (lookup_lt_is_Some_2 img (Z.to_nat y_)) as [row Hrow]; [lia|].
  rewrite Hrow.
  assert (length row = N) as Hrowlen.
  { rewrite Forall_forall in Hrows. apply Hrows.
    by eapply list_elem_of_lookup_2. }
  destruct (lookup_lt_is_Some_2 row (Z.to_nat x_)) as [v Hv]; [lia|].
  rewrite Hv. by exists v.
Qed.

Lemma grid_width_square N img :
  square_grid N img -> (0 < N)%nat -> grid_width img = Val (Z.of_nat N).
Proof.
  intros [Hlen Hrows] HN. unfold grid_width.
  destruct (lookup_lt_is_Some_2 img 0%nat) as [row Hrow]; [lia|].
  rewrite Hrow. do 2 f_equal.
  rewrite Forall_forall in Hrows. apply Hrows.
  by eapply list_elem_of_lookup_2.
Qed.

(** The two loops over the bits of one marker append its white squares. *)
Lemma bits_loop_run self geo x y img N st :
  square_grid N img -> (0 < N)%nat ->
  for_each (range (Z.of_nat N)) (fun x_ =>
    for_each (range (Z.of_nat (length img))) (fun y_ =>
      v <- lift (grid_get img y_ x_) ;;
      if v =? 0 then ret tt else emit (bit_rect self geo x y x_ y_)))%py st
  = (Val tt, add_prims (bit_prims self geo x y img) st).
Proof.
  intros Hsq HN. unfold bit_prims.
  rewrite (grid_width_square N) by done.
  apply for_each_emits. intros x_ st1 Hx_. apply elem_of_range in Hx_.
  apply for_each_emits. intros y_ st2 Hy_. apply elem_of_range in Hy_.
  destruct (grid_get_square N img y_ x_) as [v Hv];
    [done | destruct Hsq; lia | done |].
  unfold bind, lift. rewrite Hv.
  destruct (v =? 0); [|done].
  unfold ret. by rewrite add_prims_nil.
Qed.

(** One pass of the grid-loop body. *)
Lemma charuco_cell_run self d geo y x marker_id st :
  0 <= cg_bits geo ->
  (same_parity x y = false ->
   exists byteList,
     marker_entries d !! marker_key marker_id = Some byteList
     /\ (Z.to_nat (cg_bits geo * cg_bits geo) <= length byteList)%nat) ->
  charuco_cell self d geo y x marker_id st
  = (Val (if same_parity x y then marker_id else marker_id + 1),
     add_prims (if same_parity x y then [cell_rect self x y]
                else marker_prims self d geo x y marker_id) st).
Proof.
  intros Hbits Hentry. unfold charuco_cell, marker_prims.
  destruct (same_parity x y); [done|].
  destruct Hentry as (byteList & Hkey & Hlen); [done|].
  unfold dict_marker. rewrite Hkey.
  destruct (create_marker_bits_inv (cg_bits geo) byteList Hbits Hlen)
    as (img & Himg & Hsq & _).
  unfold bind at 1, lift at 1. unfold bind at 1, lift at 1. rewrite Himg.
  unfold bind at 1, emit at 1. unfold bind at 1, lift at 1.
  rewrite (grid_width_square (Z.to_nat (cg_bits geo + 2))) by (done || lia).
  unfold bind at 1.
  rewrite (bits_loop_run self geo x y img (Z.to_nat (cg_bits geo + 2)))
    by (done || lia).
  unfold ret. by rewrite add_prims_app.
Qed.

(** *** Counting the markers consumed *)

Lemma marker_index_step self y x :
  marker_index self y (x + 1)
  = if same_parity x y then marker_index self y x
    else marker_index self y x + 1.
Proof.
  unfold marker_index, same_parity.
  generalize (y * cols self / 2). intros p.
  destruct (Z.eqb_spec (x mod 2) (y mod 2)); Z.div_mod_to_equations; lia.
Qed.

Lemma marker_index_row_start self y :
  marker_index self y 0 = y * cols self / 2.
Proof.
  unfold marker_index. generalize (y * cols self / 2). intros p.
  Z.div_mod_to_equations; lia.
Qed.

Lemma mul_mod2 a b : (a * b) mod 2 = (a mod 2) * (b mod 2).
Proof.
  rewrite Z.mul_mod by done.
  assert (a mod 2 = 0 \/ a mod 2 = 1) as [-> | ->]
    by (Z.div_mod_to_equations; lia);
  assert (b mod 2 = 0 \/ b mod 2 = 1) as [-> | ->]
    by (Z.div_mod_to_equations; lia); reflexivity.
Qed.

Lemma marker_index_row_end self y :
  marker_index self y (cols self) = (y + 1) * cols self / 2.
Proof.
  unfold marker_index.
  replace ((y + 1) * cols self) with (y * cols self + cols self) by lia.
  pose proof (mul_mod2 y (cols self)) as Hmod.
  revert Hmod. generalize (y * cols self). intros p Hmod.
  assert (y mod 2 = 0 \/ y mod 2 = 1) as [Hy | Hy]
    by (Z.div_mod_to_equations; lia);
    rewrite Hy in *; Z.div_mod_to_equations; lia.
Qed.

Lemma marker_index_mono self y a b :
  a <= b -> marker_index self y a <= marker_index self y b.
Proof.
  intros Hab. unfold marker_index.
  assert ((a + y mod 2) / 2 <= (b + y mod 2) / 2)
    by (apply Z.div_le_mono; lia).
  lia.
Qed.

(** Every marker cell of the grid takes an id below
    [int(cols * rows / 2)]. *)
Lemma marker_index_bound self y x :
  0 <= x < cols self -> 0 <= y < rows self -> same_parity x y = false ->
  0 <= marker_index self y x < markers_needed self.
Proof.
  intros Hx Hy Hpar. split.
  - unfold marker_index.
    assert (0 <= y * cols self / 2) by (apply Z.div_pos; nia).
    assert (0 <= (x + y mod 2) / 2)
      by (apply Z.div_pos; [Z.div_mod_to_equations|]; lia).
    lia.
  - pose proof (marker_index_step self y x) as Hstep. rewrite Hpar in Hstep.
    pose proof (marker_index_mono self y (x + 1) (cols self)) as Hmono.
    rewrite marker_index_row_end in Hmono.
    unfold markers_needed. rewrite Z.quot_div_nonneg by nia.
    assert ((y + 1) * cols self / 2 <= cols self * rows self / 2)
      by (apply Z.div_le_mono; nia).
    lia.
Qed.

(** *** The grid loop *)

Section CharucoGrid.

Variable self : PatternMaker.
Variable d : Dictionary.
Variable geo : CharucoGeometry.
Hypothesis Hbits : cg_bits geo = markersize d.
Hypothesis Hwf : well_formed d.
Hypothesis Hcols : 0 <= cols self.
Hypothesis Hcount : markers_needed self <= nmarkers d.

Lemma charuco_row_run y st :
  0 <= y < rows self ->
  for_fold (range (cols self)) (charuco_cell self d geo y)
           (y * cols self / 2) st
  = (Val ((y + 1) * cols self / 2),
     add_prims (concat (charuco_cell_prims self d geo y
                          <$> range (cols self))) st).
Proof.
  intros Hy.
  destruct (for_fold_range_inv
              (fun x id st' =>
                 id = marker_index self y x
                 /\ st' = add_prims (concat (charuco_cell_prims self d geo y
                                               <$> range x)) st)
              (charuco_cell self d geo y) (cols self)
              (y * cols self / 2) st) as (id & st' & Hrun & Hid & Hst);
    [done | | | ].
  - split; [by rewrite marker_index_row_start|].
    by rewrite add_prims_nil.
  - intros x id st1 Hx [-> ->].
    rewrite charuco_cell_run.
    + do 2 eexists. split; [reflexivity|].
      split; [by rewrite marker_index_step|].
      rewrite add_prims_app, concat_fmap_range_succ by lia.
      reflexivity.
    + destruct Hwf. lia.
    + intros Hpar. destruct Hwf as [_ Hentries].
      rewrite Hbits. apply Hentries.
      pose proof (marker_index_bound self y x Hx Hy Hpar). lia.
  - rewrite Hrun, Hid, Hst. by rewrite marker_index_row_end.
Qed.

Lemma charuco_grid_run st :
  0 <= rows self ->
  for_fold (range (rows self)) (fun y marker_id =>
    for_fold (range (cols self)) (charuco_cell self d geo y) marker_id)
    0 st
    = (Val (rows self * cols self / 2),
       add_prims
         (concat ((fun y => concat (charuco_cell_prims self d geo y
                                      <$> range (cols self)))
                    <$> range (rows self))) st).
Proof.
  intros Hrows.
  destruct (for_fold_range_inv
              (fun y id st' =>
                 id = y * cols self / 2
                 /\ st' = add_prims
                     (concat ((fun y => concat (charuco_cell_prims self d geo y
                                                  <$> range (cols self)))
                                <$> range y)) st)
              (fun y marker_id =>
                 for_fold (range (cols self)) (charuco_cell self d geo y)
                          marker_id)
              (rows self) 0 st) as (id & st' & Hrun & Hid & Hst);
    [done | | | ].
  - split; [done|]. by rewrite add_prims_nil.
  - intros y id st1 Hy [-> ->].
    rewrite charuco_row_run by done.
    do 2 eexists. split; [reflexivity|]. split; [done|].
    rewrite add_prims_app.
    rewrite (concat_fmap_range_succ
               (fun y => concat (charuco_cell_prims self d geo y
                                   <$> range (cols self)))) by lia.
    reflexivity.
  - by rewrite Hrun, Hid, Hst.
Qed.

End CharucoGrid.

Lemma inject_Z_nonzero z : z <> 0 -> ~ (inject_Z z == 0)%Q.
Proof. intros Hz Heq. unfold Qeq in Heq. simpl in Heq. lia. Qed.

(** With enough well-formed markers the drawing part returns: it prints at
    most the warning and appends the board. *)
Lemma charuco_draw_run self d st :
  well_formed d -> 0 <= cols self -> 0 <= rows self ->
  markers_needed self <= nmarkers d ->
  exists st1,
    charuco_draw self d st
    = (Val tt, add_prims (charuco_board_prims self d) st1)
    /\ (st1 = st \/ exists b s, st1 = printed (NarrowBorder b s) st).
Proof.
  intros Hwf Hcols Hrows Hcount.
  unfold charuco_draw. unfold bind at 1, lift at 1.
  rewrite pydiv_nonzero by (apply inject_Z_nonzero; destruct Hwf; lia).
  fold (charuco_geometry self d).
  unfold bind at 1.
  destruct (Qlt_le_dec _ _).
  - eexists. split; [|right; by do 2 eexists].
    unfold print. unfold bind.
    by rewrite (charuco_grid_run self d (charuco_geometry self d)).
  - exists st. split; [|by left].
    unfold ret at 1. unfold bind.
    by rewrite (charuco_grid_run self d (charuco_geometry self d)).
Qed.

(** The board holds the black square of every filled cell and the marker
    square of every other cell. *)
Lemma charuco_board_squares self d x y :
  well_formed d -> markers_needed self <= nmarkers d ->
  0 <= x < cols self -> 0 <= y < rows self ->
  (if same_parity x y then cell_rect self x y
   else marker_rect self (charuco_geometry self d) x y)
  ∈ charuco_board_prims self d.
Proof.
  intros [Hsize Hentries] Hcount Hx Hy. unfold charuco_board_prims.
  apply (elem_of_concat_fmap _ _ y); [by apply elem_of_range|].
  apply (elem_of_concat_fmap _ _ x); [by apply elem_of_range|].
  unfold charuco_cell_prims.
  destruct (same_parity x y) eqn:Hpar; [apply list_elem_of_here|].
  unfold marker_prims, dict_marker.
  destruct (Hentries (marker_index self y x)) as (byteList & Hkey & Hlen).
  { pose proof (marker_index_bound self y x Hx Hy Hpar). lia. }
  destruct (create_marker_bits_inv (markersize d) byteList Hsize Hlen)
    as (img & Himg & _).
  rewrite Hkey. simpl. rewrite Himg. apply list_elem_of_here.
Qed.

Lemma aruco_12_well_formed : well_formed aruco_12.
Proof.
  split; [simpl; lia|].
  intros id Hid. simpl in Hid. exists [1].
  assert (id = 0 \/ id = 1 \/ id = 2 \/ id = 3 \/ id = 4 \/ id = 5 \/ id = 6
          \/ id = 7 \/ id = 8 \/ id = 9 \/ id = 10 \/ id = 11) as Hcase by lia.
  repeat (destruct Hcase as [-> | Hcase]; [by vm_compute|]).
  subst id. by vm_compute.
Qed.

(** C4, as the source checks it: the 5 x 5 board takes a dictionary of 12
    markers, one fewer than the ceiling of 25 / 2, without the
    insufficient-markers error, and draws the board. *)
Lemma charuco_5x5_accepts_12 :
  exists st',
    make_charuco_board fs_12 board_5x5 init_store = (Val tt, st')
    /\ nmarkers aruco_12 = (cols board_5x5 * rows board_5x5 + 1) / 2 - 1
    /\ (InsufficientMarkers ∉ stdout st')
    /\ length (g st') = 37%nat.
Proof.
  eexists. split; [vm_compute; reflexivity|].
  split; [reflexivity|]. split; [|reflexivity].
  intros Hin. apply list_elem_of_In in Hin. simpl in Hin.
  by destruct Hin as [?|[]].
Qed.

(** C4 (amended).  For a grid with |cols * rows| <= 2^53, the range in which
    the binary64 quotient [cols * rows / 2] is the exact half and its
    truncation is [Z.quot (cols * rows) 2]: once the marker-size check has
    passed and the dictionary is loaded, [make_charuco_board] fails with the
    insufficient-markers error exactly when the dictionary's marker count is
    strictly less than [int(cols * rows / 2)], the product halved and
    truncated; it then returns without emitting a primitive.  With a well-formed dictionary whose count is at
    least that number, in particular one whose count equals the ceiling of
    cols * rows / 2, the call returns having appended the board: the black
    square of every filled cell and the marker square of every other cell.
    A 5 x 5 board requires 12 markers, so a dictionary of 12 is accepted. *)
Theorem charuco_marker_count_check (fs : FileSystem) (self : PatternMaker)
    (st : Store) (d : Dictionary) :
  Z.abs (cols self * rows self) <= 2 ^ 53 ->
  (aruco_marker_size self <= square_size self)%Q ->
  fs (dict_file self) = Val d ->
  (stdout (make_charuco_board fs self st).2
   = stdout st ++ [InsufficientMarkers]
   <-> nmarkers d < Z.quot (cols self * rows self) 2)
  /\ (nmarkers d < Z.quot (cols self * rows self) 2 ->
      make_charuco_board fs self st
      = (Val tt, printed InsufficientMarkers st))
  /\ (well_formed d -> 0 <= cols self -> 0 <= rows self ->
      Z.quot (cols self * rows self) 2 <= nmarkers d
      \/ nmarkers d = (cols self * rows self + 1) / 2 ->
      (exists st1,
         make_charuco_board fs self st
         = (Val tt, add_prims (charuco_board_prims self d) st1)
         /\ (st1 = st \/ exists b s, st1 = printed (NarrowBorder b s) st))
      /\ forall x y, 0 <= x < cols self -> 0 <= y < rows self ->
           (if same_parity x y then cell_rect self x y
            else marker_rect self (charuco_geometry self d) x y)
           ∈ charuco_board_prims self d)
  /\ (cols self = 5 -> rows self = 5 -> nmarkers d = 12 ->
      stdout (make_charuco_board fs self st).2
      <> stdout st ++ [InsufficientMarkers]).
Proof.
  intros _ Hfit Hfs.
  assert (stdout (make_charuco_board fs self st).2
          = stdout st ++ [InsufficientMarkers]
          <-> nmarkers d < markers_needed self) as Hiff.
  { split.
    - intros Hout.
      destruct (Z.lt_ge_cases (nmarkers d) (markers_needed self)) as [|Hok];
        [done|].
      rewrite (charuco_proceeds fs self st d) in Hout by (done || lia).
      apply charuco_draw_no_error in Hout; [done | by right].
    - intros Hfew. by rewrite (charuco_too_few fs self st d). }
  split; [exact Hiff|].
  split; [by apply charuco_too_few|].
  split.
  - intros Hwf Hcols Hrows Hcount.
    assert (markers_needed self <= nmarkers d) as Hok.
    { destruct Hcount as [? | ->]; [done|].
      unfold markers_needed. rewrite Z.quot_div_nonneg by nia.
      apply Z.div_le_mono; lia. }
    split; [|intros x y; by apply charuco_board_squares].
    rewrite (charuco_proceeds fs self st d) by done.
    by apply charuco_draw_run.
  - intros Hc Hr Hn Hout. apply Hiff in Hout.
    unfold markers_needed in Hout. rewrite Hc, Hr, Hn in Hout.
    by vm_compute in Hout.
Qed.

Lemma charuco_marker_count_check_witness :
  exists st1,
    make_charuco_board fs_12 board_5x5 init_store
    = (Val tt, add_prims (charuco_board_prims board_5x5 aruco_12) st1)
    /\ marker_rect board_5x5 (charuco_geometry board_5x5 aruco_12) 1 0
       ∈ charuco_board_prims board_5x5 aruco_12.
Proof.
  destruct (charuco_marker_count_check fs_12 board_5x5 init_store aruco_12)
    as (_ & _ & Hdraw & _).
  - vm_compute. discriminate.
  - unfold Qle. simpl. lia.
  - reflexivity.
  - destruct Hdraw as [(st1 & Hrun & _) Hsquares].
    + exact aruco_12_well_formed.
    + simpl. lia.
    + simpl. lia.
    + left. vm_compute. discriminate.
    + exists st1. split; [exact Hrun|].
      apply (Hsquares 1 0); simpl; lia.
Defined.

(** * Further properties of the layout engine *)

(** ** Counting and membership in grid loops *)

Lemma elem_of_concat_fmap_inv {A B} (f : A -> list B) (l : list A) b :
  b ∈ concat (f <$> l) -> exists a, a ∈ l /\ b ∈ f a.
Proof.
  induction l as [|a l IH]; csimpl; intros Hb.
  - by apply elem_of_nil in Hb.
  - apply elem_of_app in Hb as [Hb | Hb].
    + exists a. split; [apply list_elem_of_here | done].
    + destruct (IH Hb) as (a' & Ha' & Hb').
      exists a'. split; [by apply list_elem_of_further | done].
Qed.

(** The length of what a [range] loop appends, from the length each pass
    adds. *)
Lemma length_concat_range {B} (f : Z -> list B) (F : Z -> Z) (n : Z) :
  0 <= n -> F 0 = 0 ->
  (forall i, 0 <= i < n -> F (i + 1) = F i + Z.of_nat (length (f i))) ->
  Z.of_nat (length (concat (f <$> range n))) = F n.
Proof.
  intros Hn H0 Hstep.
  assert (forall k : nat, Z.of_nat k <= n ->
            Z.of_nat (length (concat (f <$> range (Z.of_nat k))))
            = F (Z.of_nat k)) as Hall.
  { induction k as [|k IH]; intros Hk.
    - change (Z.of_nat 0) with 0. rewrite H0. reflexivity.
    - rewrite Nat2Z.inj_succ, <- Z.add_1_r.
      rewrite concat_fmap_range_succ, length_app by lia.
      rewrite Nat2Z.inj_add, IH, Hstep by lia. done. }
  specialize (Hall (Z.to_nat n)). rewrite Z2Nat.id in Hall by done.
  apply Hall. lia.
Qed.

Lemma same_parity_count_step x k :
  (k + 1 + 1 - x mod 2) / 2
  = (k + 1 - x mod 2) / 2
    + Z.of_nat (length (if same_parity x k then [()] else [])).
Proof.
  unfold same_parity.
  destruct (Z.eqb_spec (x mod 2) (k mod 2)); simpl;
    Z.div_mod_to_equations; lia.
Qed.

Lemma filled_column_step rows x :
  ((x + 1) * rows + 1) / 2 = (x * rows + 1) / 2 + (rows + 1 - x mod 2) / 2.
Proof.
  replace ((x + 1) * rows) with (x * rows + rows) by lia.
  pose proof (mul_mod2 x rows) as Hmod.
  revert Hmod. generalize (x * rows). intros p Hmod.
  assert (x mod 2 = 0 \/ x mod 2 = 1) as [Hx | Hx]
    by (Z.div_mod_to_equations; lia);
    rewrite Hx in *; Z.div_mod_to_equations; lia.
Qed.

(** A grid loop that appends one primitive for every cell whose indices
    share parity, and nothing for the others, appends
    ceil (cols * rows / 2) primitives. *)
Lemma filled_cells_count (cs rs : Z) (cell : Z -> Z -> list Primitive) :
  0 <= cs -> 0 <= rs ->
  (forall x y, length (cell x y) = if same_parity x y then 1%nat else 0%nat) ->
  Z.of_nat (length (concat ((fun x => concat (cell x <$> range rs))
                              <$> range cs)))
  = (cs * rs + 1) / 2.
Proof.
  intros Hcs Hrs Hcell.
  apply (length_concat_range _ (fun x => (x * rs + 1) / 2)); [done | done |].
  intros x Hx. rewrite filled_column_step. f_equal.
  symmetry.
  apply (length_concat_range _ (fun k => (k + 1 - x mod 2) / 2)); [done | |].
  - Z.div_mod_to_equations; lia.
  - intros k Hk. rewrite Hcell.
    pose proof (same_parity_count_step x k) as Hstep.
    destruct (same_parity x k); simpl in *; lia.
Qed.

(** ** Checkerboard *)

Lemma checkerboard_run self st :
  make_checkerboard_pattern self st
  = (Val tt,
     add_prims
       (concat ((fun x =>
                   concat ((fun y => if same_parity x y
                                     then [cell_rect self x y] else [])
                             <$> range (rows self)))
                  <$> range (cols self))) st).
Proof.
  unfold make_checkerboard_pattern.
  apply for_each_emits. intros x st1 _.
  apply for_each_emits. intros y st2 _.
  destruct (same_parity x y); [done|].
  unfold ret. by rewrite add_prims_nil.
Qed.

(** X1.  [make_checkerboard_pattern] always returns; it appends exactly the
    black squares of the cells (x, y) of the grid with x mod 2 = y mod 2,
    and for non-negative columns and rows that is ceil (cols * rows / 2)
    squares. *)
Theorem checkerboard_squares (self : PatternMaker) (st : Store) :
  exists squares,
    make_checkerboard_pattern self st = (Val tt, add_prims squares st)
    /\ (forall p,
          p ∈ squares
          <-> exists x y, 0 <= x < cols self /\ 0 <= y < rows self
                          /\ x mod 2 = y mod 2 /\ p = cell_rect self x y)
    /\ (0 <= cols self -> 0 <= rows self ->
        Z.of_nat (length squares) = (cols self * rows self + 1) / 2).
Proof.
  eexists. split; [apply checkerboard_run|]. split.
  - intros p. split.
    + intros Hp.
      apply elem_of_concat_fmap_inv in Hp as (x & Hx & Hp).
      apply elem_of_concat_fmap_inv in Hp as (y & Hy & Hp).
      apply elem_of_range in Hx, Hy. unfold same_parity in Hp.
      destruct (Z.eqb_spec (x mod 2) (y mod 2)) as [Hpar|_];
        [|by apply elem_of_nil in Hp].
      apply list_elem_of_singleton in Hp. by exists x, y.
    + intros (x & y & Hx & Hy & Hpar & ->).
      apply (elem_of_concat_fmap _ _ x); [by apply elem_of_range|].
      apply (elem_of_concat_fmap _ _ y); [by apply elem_of_range|].
      unfold same_parity. rewrite (proj2 (Z.eqb_eq _ _) Hpar).
      apply list_elem_of_here.
  - intros Hcols Hrows.
    apply (filled_cells_count (cols self) (rows self)
             (fun x y => if same_parity x y then [cell_rect self x y] else []));
      [done | done |].
    intros x y. by destruct (same_parity x y).
Qed.

Lemma checkerboard_squares_witness :
  exists squares,
    make_checkerboard_pattern default_board init_store
    = (Val tt, add_prims squares init_store)
    /\ cell_rect default_board 3 5 ∈ squares
    /\ Z.of_nat (length squares) = 44.
Proof.
  destruct (checkerboard_squares default_board init_store)
    as (squares & Hrun & Hmem & Hlen).
  exists squares. split; [exact Hrun|]. split.
  - apply Hmem. exists 3, 5. simpl. repeat split; lia.
  - apply Hlen; simpl; lia.
Defined.

(** ** Circle grids: errors, empty grids, centring *)

Lemma pydiv_zero a b : (b == 0)%Q -> pydiv a b = Raise ZeroDivisionError.
Proof. intros Hb. unfold pydiv. by rewrite (Qeq_eq_bool _ _ Hb). Qed.

(** X2.  With a radius rate of zero both circle-grid methods raise
    [ZeroDivisionError] before anything is drawn: the store is untouched. *)
Theorem circles_zero_radius_rate (self : PatternMaker) (st : Store) :
  (radius_rate self == 0)%Q ->
  make_circles_pattern self st = (Raise ZeroDivisionError, st)
  /\ make_acircles_pattern self st = (Raise ZeroDivisionError, st).
Proof.
  intros Hrr.
  unfold make_circles_pattern, make_acircles_pattern, bind, lift,
    circles_geometry, acircles_geometry.
  by rewrite !pydiv_zero.
Qed.

Lemma circles_zero_radius_rate_witness :
  make_circles_pattern
    {| cols := 8; rows := 11; units := "mm"; square_size := 20;
       radius_rate := 0; width := 210; height := 297; markers := None;
       aruco_marker_size := 10; dict_file := "DICT_ARUCO_ORIGINAL.json" |}
    init_store
  = (Raise ZeroDivisionError, init_store).
Proof.
  apply (circles_zero_radius_rate
           {| cols := 8; rows := 11; units := "mm"; square_size := 20;
              radius_rate := 0; width := 210; height := 297; markers := None;
              aruco_marker_size := 10;
              dict_file := "DICT_ARUCO_ORIGINAL.json" |} init_store).
  reflexivity.
Defined.

Lemma range_nonpos n : n <= 0 -> range n = [].
Proof.
  intros Hn. unfold range, seqZ.
  by replace (Z.to_nat n) with 0%nat by lia.
Qed.

Lemma concat_fmap_nil {A B} (f : A -> list B) (l : list A) :
  (forall a, f a = []) -> concat (f <$> l) = [].
Proof.
  intros Hf. induction l as [|a l IH]; csimpl; [done|].
  by rewrite Hf, IH.
Qed.

(** A grid with no column or no row has no cell. *)
Lemma empty_grid_prims (cs rs : Z) (cell : Z -> Z -> list Primitive) :
  cs <= 0 \/ rs <= 0 ->
  concat ((fun x => concat (cell x <$> range rs)) <$> range cs) = [].
Proof.
  intros [Hcs | Hrs].
  - by rewrite (range_nonpos cs).
  - apply concat_fmap_nil. intros x. by rewrite (range_nonpos rs).
Qed.

Lemma empty_grid_dots (cs rs : Z) (dot : Z -> Z -> Primitive) :
  cs <= 0 \/ rs <= 0 ->
  concat ((fun x => dot x <$> range rs) <$> range cs) = [].
Proof.
  intros [Hcs | Hrs].
  - by rewrite (range_nonpos cs).
  - apply concat_fmap_nil. intros x. by rewrite (range_nonpos rs).
Qed.

(** X3.  On a grid without columns or without rows (a count that is zero or
    negative) the circle grids (radius rate not zero), the checkerboard and
    the Radon checkerboard without marker list return and draw nothing. *)
Theorem empty_grid_draws_nothing (fmt : Q -> string) (self : PatternMaker)
    (st : Store) :
  cols self <= 0 \/ rows self <= 0 ->
  (~ (radius_rate self == 0)%Q ->
   make_circles_pattern self st = (Val tt, st)
   /\ make_acircles_pattern self st = (Val tt, st))
  /\ make_checkerboard_pattern self st = (Val tt, st)
  /\ (markers self = None ->
      make_radon_checkerboard_pattern fmt self st = (Val tt, st)).
Proof.
  intros Hempty. split; [|split].
  - intros Hrr.
    destruct (circles_geometry_nonzero self Hrr) as (geo & Hgeo & _).
    destruct (acircles_geometry_nonzero self Hrr) as (ageo & Hageo & _).
    unfold make_circles_pattern, make_acircles_pattern, bind, lift.
    rewrite Hgeo, Hageo, !grid_loop_emits.
    rewrite !empty_grid_dots, add_prims_nil by done. done.
  - rewrite checkerboard_run, empty_grid_prims by done.
    by rewrite add_prims_nil.
  - intros Hms. rewrite radon_run, Hms, empty_grid_prims by done.
    by rewrite add_prims_nil.
Qed.

Lemma empty_grid_draws_nothing_witness :
  make_checkerboard_pattern
    {| cols := 0; rows := 11; units := "mm"; square_size := 20;
       radius_rate := 5; width := 210; height := 297; markers := None;
       aruco_marker_size := 10; dict_file := "DICT_ARUCO_ORIGINAL.json" |}
    init_store
  = (Val tt, init_store).
Proof.
  destruct (empty_grid_draws_nothing fmt_fraction
              {| cols := 0; rows := 11; units := "mm"; square_size := 20;
                 radius_rate := 5; width := 210; height := 297;
                 markers := None; aruco_marker_size := 10;
                 dict_file := "DICT_ARUCO_ORIGINAL.json" |} init_store)
    as (_ & Hboard & _).
  - left. simpl. lia.
  - exact Hboard.
Defined.

Lemma inject_Z_pred z : (inject_Z (z - 1) == inject_Z z - 1)%Q.
Proof.
  replace (z - 1) with (z + -1) by lia. rewrite inject_Z_plus.
  change (inject_Z (-1)) with (-1)%Q. ring.
Qed.

(** X4.  The circle grid is centred on the page: when there is at least one
    cell (and the radius rate is not zero), the first circle, of cell (0,0),
    and the last one, of cell (cols-1, rows-1), leave equal margins: the left
    edge of the first is as far from the left of the page as the right edge
    of the last is from the right, and likewise top and bottom. *)
Theorem circles_centred (self : PatternMaker) (st : Store) :
  ~ (radius_rate self == 0)%Q -> 0 < cols self -> 0 < rows self ->
  exists dots cx0 cy0 cx1 cy1 r,
    make_circles_pattern self st = (Val tt, add_prims dots st)
    /\ dots !! 0%nat = Some (Circle (cx0, cy0) r "black" "none")
    /\ dots !! Z.to_nat (cols self * rows self - 1)
       = Some (Circle (cx1, cy1) r "black" "none")
    /\ (cx0 - r == width self - (cx1 + r))%Q
    /\ (cy0 - r == height self - (cy1 + r))%Q.
Proof.
  intros Hrr Hcols Hrows.
  destruct (circles_geometry_nonzero self Hrr)
    as (geo & Hgeo & Hr & Hfoot & Hoff).
  do 6 eexists. unfold make_circles_pattern, bind, lift. rewrite Hgeo.
  split; [apply grid_loop_emits|].
  split.
  { exact (grid_lookup (cols self) (rows self) (circles_dot self geo) 0 0
             ltac:(lia) ltac:(lia)). }
  split.
  { replace (cols self * rows self - 1)
      with ((cols self - 1) * rows self + (rows self - 1)) by lia.
    exact (grid_lookup (cols self) (rows self) (circles_dot self geo)
             (cols self - 1) (rows self - 1) ltac:(lia) ltac:(lia)). }
  injection Hoff as Hx Hy. rewrite Hx, Hy, Hr.
  unfold spec_offsets, spec_footprint, spec_radius. simpl.
  rewrite !inject_Z_pred. change (inject_Z 0) with 0%Q.
  split; field; done.
Qed.

Lemma circles_centred_witness :
  exists dots cx0 cy0 cx1 cy1 r,
    make_circles_pattern default_board init_store
    = (Val tt, add_prims dots init_store)
    /\ dots !! 0%nat = Some (Circle (cx0, cy0) r "black" "none")
    /\ dots !! 87%nat = Some (Circle (cx1, cy1) r "black" "none")
    /\ (cx0 - r == 210 - (cx1 + r))%Q
    /\ (cy0 - r == 297 - (cy1 + r))%Q.
Proof.
  apply (circles_centred default_board init_store).
  - by vm_compute.
  - simpl. lia.
  - simpl. lia.
Defined.

(** X5.  The asymmetric circle grid is centred too: with at least one column
    and two rows, the left edge of the circle of cell (0,0) is as far from the
    left of the page as the right edge of the circle of cell (cols-1, 1), on
    the shifted row, is from the right; and the top of row 0 is as far from
    the top as the bottom of row rows-1 is from the bottom. *)
Theorem acircles_centred (self : PatternMaker) (st : Store) :
  ~ (radius_rate self == 0)%Q -> 0 < cols self -> 1 < rows self ->
  exists dots cx0 cy0 cx1 cy1 cx2 cy2 r,
    make_acircles_pattern self st = (Val tt, add_prims dots st)
    /\ dots !! 0%nat = Some (Circle (cx0, cy0) r "black" "none")
    /\ dots !! Z.to_nat ((cols self - 1) * rows self + 1)
       = Some (Circle (cx1, cy1) r "black" "none")
    /\ dots !! Z.to_nat (cols self * rows self - 1)
       = Some (Circle (cx2, cy2) r "black" "none")
    /\ (cx0 - r == width self - (cx1 + r))%Q
    /\ (cy0 - r == height self - (cy2 + r))%Q.
Proof.
  intros Hrr Hcols Hrows.
  destruct (acircles_geometry_nonzero self Hrr) as (geo & Hgeo & Hr & Hoff).
  do 8 eexists. unfold make_acircles_pattern, bind, lift. rewrite Hgeo.
  split; [apply grid_loop_emits|].
  split.
  { exact (grid_lookup (cols self) (rows self) (acircles_dot self geo) 0 0
             ltac:(lia) ltac:(lia)). }
  split.
  { exact (grid_lookup (cols self) (rows self) (acircles_dot self geo)
             (cols self - 1) 1 ltac:(lia) ltac:(lia)). }
  split.
  { replace (cols self * rows self - 1)
      with ((cols self - 1) * rows self + (rows self - 1)) by lia.
    exact (grid_lookup (cols self) (rows self) (acircles_dot self geo)
             (cols self - 1) (rows self - 1) ltac:(lia) ltac:(lia)). }
  injection Hoff as Hx Hy. rewrite Hx, Hy, Hr.
  unfold spec_acircles_offsets, spec_acircles_footprint, spec_radius. simpl.
  rewrite !inject_Z_pred.
  change (inject_Z (0 mod 2)) with 0%Q. change (inject_Z (1 mod 2)) with 1%Q.
  change (inject_Z 0) with 0%Q.
  split; field; done.
Qed.

Lemma acircles_centred_witness :
  exists dots cx0 cy0 cx1 cy1 cx2 cy2 r,
    make_acircles_pattern default_board init_store
    = (Val tt, add_prims dots init_store)
    /\ dots !! 0%nat = Some (Circle (cx0, cy0) r "black" "none")
    /\ dots !! 78%nat = Some (Circle (cx1, cy1) r "black" "none")
    /\ dots !! 87%nat = Some (Circle (cx2, cy2) r "black" "none")
    /\ (cx0 - r == 210 - (cx1 + r))%Q
    /\ (cy0 - r == 297 - (cy2 + r))%Q.
Proof.
  apply (acircles_centred default_board init_store).
  - by vm_compute.
  - simpl. lia.
  - simpl. lia.
Defined.

(** ** Corner flags and rounded rectangles *)

(** X6.  [_get_type] returns four flags, each "round" or "right": a corner
    is "round" exactly when the cell lies on one of the two board edges that
    meet the corner's sides (top-left: left or top; top-right: top or right;
    bottom-right: right or bottom; bottom-left: left or bottom), and the cell
    is reported inside exactly when it lies on no board edge. *)
Theorem get_type_characterised (self : PatternMaker) (x y : Z) :
  exists c0 c1 c2 c3,
    _get_type self x y
    = ([c0; c1; c2; c3],
       bool_decide (x <> 0 /\ y <> 0
                    /\ x <> cols self - 1 /\ y <> rows self - 1))
    /\ c0 = (if decide (x = 0 \/ y = 0) then "round" else "right")
    /\ c1 = (if decide (y = 0 \/ x = cols self - 1) then "round" else "right")
    /\ c2 = (if decide (x = cols self - 1 \/ y = rows self - 1)
             then "round" else "right")
    /\ c3 = (if decide (x = 0 \/ y = rows self - 1) then "round" else "right").
Proof.
  unfold _get_type.
  destruct (Z.eqb_spec x 0), (Z.eqb_spec y 0),
    (Z.eqb_spec x (cols self - 1)), (Z.eqb_spec y (rows self - 1));
    do 4 eexists; (split; [simpl; f_equal; symmetry;
                           (apply bool_decide_eq_true; lia)
                           || (apply bool_decide_eq_false; lia)|]);
    repeat split; case_decide; (done || lia).
Qed.

Lemma res_fold_app {A St} (l1 l2 : list A) (body : A -> St -> Res St) s :
  res_fold (l1 ++ l2) body s = rbind (res_fold l1 body s) (res_fold l2 body).
Proof.
  revert s. induction l1 as [|a l1 IH]; intros s; simpl; [done|].
  destruct (body a s) as [s1|e]; simpl; [apply IH | done].
Qed.

Lemma res_fold_ext {A St} (l : list A) (body body' : A -> St -> Res St) s :
  (forall a s, a ∈ l -> body a s = body' a s) ->
  res_fold l body s = res_fold l body' s.
Proof.
  revert s. induction l as [|a l IH]; intros s Hext; simpl; [done|].
  rewrite Hext by apply list_elem_of_here.
  destruct (body' a s) as [s1|e]; simpl; [|done].
  apply IH. intros b s' Hb. apply Hext. by apply list_elem_of_further.
Qed.

(** The loop stops with [IndexError] at the first corner that is not there,
    when the corners before it are valid. *)
Lemma round_rect_fold_missing fmt x y diam corners idxs1 i idxs2 path :
  (forall j, j ∈ idxs1 ->
     exists c, corners !! Z.to_nat j = Some c /\ valid_flag c) ->
  corners !! Z.to_nat i = None ->
  res_fold (idxs1 ++ i :: idxs2)
    (round_rect_step fmt x y diam (diam / 2) corners) path
  = Raise IndexError.
Proof.
  intros Hvalid Hnone. rewrite res_fold_app.
  destruct (round_rect_fold_valid fmt x y diam corners idxs1 path Hvalid)
    as [segs ->].
  simpl. unfold round_rect_step. by rewrite Hnone.
Qed.

(** X7.  [_make_round_rect] reads the first four corner flags only: given
    fewer than four flags, all valid, it raises [IndexError]; flags after the
    fourth are ignored, whatever they are. *)
Theorem make_round_rect_flag_count (fmt : Q -> string) (x y diam : Q) :
  (forall corners,
     (length corners < 4)%nat -> Forall valid_flag corners ->
     _make_round_rect fmt x y diam corners = Raise IndexError)
  /\ (forall c0 c1 c2 c3 extra,
        _make_round_rect fmt x y diam ([c0; c1; c2; c3] ++ extra)
        = _make_round_rect fmt x y diam [c0; c1; c2; c3]).
Proof.
  split.
  - intros corners Hlen Hvalid. unfold _make_round_rect. rewrite range_4.
    assert (forall j, (Z.to_nat j < length corners)%nat ->
              exists c, corners !! Z.to_nat j = Some c /\ valid_flag c)
      as Hpresent.
    { intros j Hj.
      destruct (lookup_lt_is_Some_2 corners (Z.to_nat j) Hj) as [c Hc].
      exists c. split; [done|].
      rewrite Forall_forall in Hvalid. apply Hvalid.
      by eapply list_elem_of_lookup_2. }
    destruct corners as [|c0 [|c1 [|c2 [|c3 [|c4 rest]]]]];
      simpl in Hlen; try lia.
    + rewrite (round_rect_fold_missing _ _ _ _ _ [] 0 [1; 2; 3]);
        [done| |done].
      intros j Hj. by apply elem_of_nil in Hj.
    + rewrite (round_rect_fold_missing _ _ _ _ _ [0] 1 [2; 3]); [done| |done].
      intros j Hj. apply Hpresent. set_unfold. destruct Hj as [-> | []].
      simpl. lia.
    + rewrite (round_rect_fold_missing _ _ _ _ _ [0; 1] 2 [3]); [done| |done].
      intros j Hj. apply Hpresent. set_unfold.
      destruct Hj as [-> | [-> | []]]; simpl; lia.
    + rewrite (round_rect_fold_missing _ _ _ _ _ [0; 1; 2] 3 []);
        [done| |done].
      intros j Hj. apply Hpresent. set_unfold.
      destruct Hj as [-> | [-> | [-> | []]]]; simpl; lia.
  - intros c0 c1 c2 c3 extra. unfold _make_round_rect. rewrite range_4.
    rewrite (res_fold_ext [0; 1; 2; 3]
               (round_rect_step fmt x y diam (diam / 2)
                                ([c0; c1; c2; c3] ++ extra))
               (round_rect_step fmt x y diam (diam / 2) [c0; c1; c2; c3]));
      [done|].
    intros i path Hi. unfold round_rect_step.
    replace (([c0; c1; c2; c3] ++ extra) !! Z.to_nat i)
      with ([c0; c1; c2; c3] !! Z.to_nat i); [done|].
    set_unfold. destruct Hi as [-> | [-> | [-> | [-> | []]]]]; reflexivity.
Qed.

Lemma make_round_rect_flag_count_witness :
  _make_round_rect fmt_fraction 0 0 20 ["round"; "right"; "round"]
  = Raise IndexError.
Proof.
  apply (proj1 (make_round_rect_flag_count fmt_fraction 0 0 20)).
  - simpl. lia.
  - flags_valid.
Defined.

(** ** Radon checkerboard: totality and size *)

Lemma radon_cell_prims_shape fmt self x y :
  (same_parity x y = false /\ radon_cell_prims fmt self x y = [])
  \/ (same_parity x y = true /\ snd (_get_type self x y) = true
      /\ radon_cell_prims fmt self x y = [cell_rect self x y])
  \/ (same_parity x y = true /\ snd (_get_type self x y) = false
      /\ exists d, radon_cell_prims fmt self x y = [Path d "black" "none"]).
Proof.
  unfold radon_cell_prims.
  destruct (same_parity x y); [right | by left].
  destruct (get_type_flags self x y) as (c0 & c1 & c2 & c3 & -> & Hvalid).
  destruct (snd (_get_type self x y)); [by left | right].
  destruct (make_round_rect_valid fmt
    (inject_Z x * square_size self + board_xspacing self)
    (inject_Z y * square_size self + board_yspacing self)
    (square_size self) c0 c1 c2 c3 Hvalid) as [body ->].
  split; [done|]. split; [done|]. by eexists.
Qed.

Lemma radon_cell_prims_filled fmt self x y :
  same_parity x y = true ->
  exists p,
    radon_cell_prims fmt self x y = [p]
    /\ (if snd (_get_type self x y) then p = cell_rect self x y
        else is_cell_path fmt self x y p).
Proof.
  intros Hpar. unfold is_cell_path, radon_cell_prims. rewrite Hpar.
  destruct (get_type_flags self x y) as (c0 & c1 & c2 & c3 & -> & Hvalid).
  destruct (snd (_get_type self x y)); [by eexists|].
  destruct (make_round_rect_valid fmt
    (inject_Z x * square_size self + board_xspacing self)
    (inject_Z y * square_size self + board_yspacing self)
    (square_size self) c0 c1 c2 c3 Hvalid) as [body ->].
  eexists. split; [reflexivity|]. by exists body.
Qed.

(** X8.  [make_radon_checkerboard_pattern] returns for every board and
    every marker list, with the group holding what it held before, then
    the primitives of the grid pass, then the overlay dot of every listed
    pair in order.  The grid pass draws exactly one primitive for every
    filled cell of the grid and nothing else: the plain black square when
    [_get_type] reports a square cell, otherwise the black path whose data
    is the value [_make_round_rect] returns for the cell's corner flags, a
    path that starts with a move and is closed by Z.  So it draws
    ceil (cols * rows / 2) primitives on a grid with non-negative counts,
    as many as the plain checkerboard. *)
Theorem radon_always_returns (fmt : Q -> string) (self : PatternMaker)
    (st : Store) :
  exists cells,
    make_radon_checkerboard_pattern fmt self st
    = (Val tt,
       add_prims (cells ++ (spec_overlay_dot self
                              <$> default [] (markers self))) st)
    /\ g (make_radon_checkerboard_pattern fmt self st).2
       = g st ++ cells
         ++ (spec_overlay_dot self <$> default [] (markers self))
    /\ (forall p, p ∈ cells ->
          exists x y,
            0 <= x < cols self /\ 0 <= y < rows self
            /\ same_parity x y = true
            /\ (if snd (_get_type self x y) then p = cell_rect self x y
                else is_cell_path fmt self x y p))
    /\ (forall x y, 0 <= x < cols self -> 0 <= y < rows self ->
          same_parity x y = true ->
          exists p,
            p ∈ cells
            /\ (if snd (_get_type self x y) then p = cell_rect self x y
                else is_cell_path fmt self x y p))
    /\ (0 <= cols self -> 0 <= rows self ->
        Z.of_nat (length cells) = (cols self * rows self + 1) / 2).
Proof.
  assert (forall ms : option (list (Z * Z)),
            match ms with
            | None => []
            | Some ms => spec_overlay_dot self <$> ms
            end = spec_overlay_dot self <$> default [] ms) as Hdots.
  { by intros [ms|]. }
  eexists. split; [|split; [|split; [|split]]].
  - rewrite radon_run, Hdots. reflexivity.
  - rewrite radon_run, Hdots. reflexivity.
  - intros p Hp.
    apply elem_of_concat_fmap_inv in Hp as (x & Hx & Hp).
    apply elem_of_concat_fmap_inv in Hp as (y & Hy & Hp).
    apply elem_of_range in Hx. apply elem_of_range in Hy.
    exists x, y. split; [done|]. split; [done|].
    destruct (same_parity x y) eqn:Hpar.
    + destruct (radon_cell_prims_filled fmt self x y Hpar)
        as (q & Heq & Hq).
      rewrite Heq in Hp. apply list_elem_of_singleton in Hp. by subst q.
    + unfold radon_cell_prims in Hp. rewrite Hpar in Hp.
      by apply elem_of_nil in Hp.
  - intros x y Hx Hy Hpar.
    destruct (radon_cell_prims_filled fmt self x y Hpar) as (q & Heq & Hq).
    exists q. split; [|done].
    apply (elem_of_concat_fmap _ _ x); [by apply elem_of_range|].
    apply (elem_of_concat_fmap _ _ y); [by apply elem_of_range|].
    rewrite Heq. apply list_elem_of_here.
  - intros Hcols Hrows.
    apply (filled_cells_count (cols self) (rows self)
             (radon_cell_prims fmt self)); [done | done |].
    intros x y.
    destruct (radon_cell_prims_shape fmt self x y)
      as [[-> ->] | [(-> & _ & ->) | (-> & _ & d & ->)]]; done.
Qed.

Lemma radon_always_returns_witness :
  exists cells,
    g (make_radon_checkerboard_pattern fmt_fraction board_5x5 init_store).2
    = cells ++ [spec_overlay_dot board_5x5 (0, 0);
                spec_overlay_dot board_5x5 (7, -1)]
    /\ (exists p, p ∈ cells /\ is_cell_path fmt_fraction board_5x5 0 0 p)
    /\ Z.of_nat (length cells) = 13.
Proof.
  destruct (radon_always_returns fmt_fraction board_5x5 init_store)
    as (cells & _ & Hg & _ & Hcell & Hcells).
  exists cells. split; [exact Hg|]. split.
  - apply (Hcell 0 0); [simpl; lia | simpl; lia | reflexivity].
  - apply Hcells; simpl; lia.
Defined.

(** ** Marker bit grids: errors and edge cases *)

Lemma range_split n k :
  0 <= k < n -> range n = range k ++ k :: seqZ (k + 1) (n - k - 1).
Proof.
  intros Hk. unfold range.
  replace n with (k + (n - k)) at 1 by lia.
  rewrite seqZ_app by lia. rewrite (seqZ_cons (0 + k)) by lia.
  replace (Z.succ (0 + k)) with (k + 1) by lia.
  replace (Z.pred (n - k)) with (n - k - 1) by lia.
  by replace (0 + k) with k by lia.
Qed.

(** A [range] loop whose every pass returns, returns. *)
Lemma res_fold_range_val {St} (body : Z -> St -> Res St) (n : Z) (s : St) :
  (forall i s, 0 <= i < n -> exists s', body i s = Val s') ->
  exists s', res_fold (range n) body s = Val s'.
Proof.
  intros Hbody.
  destruct (Z.le_gt_cases 0 n) as [Hn|Hn].
  - destruct (res_fold_range_inv (fun _ _ => True) body n s Hn I)
      as (s' & Hrun & _); [|by exists s'].
    intros i s1 Hi _. destruct (Hbody i s1 Hi) as [s' Hs']. by exists s'.
  - rewrite range_nonpos by lia. by exists s.
Qed.

(** X9.  [_create_marker_bits] on a bit sequence shorter than
    [markerSize_bits * markerSize_bits] raises [IndexError]; a side below -2
    raises [ValueError]; and a side from -2 to 0 gives the all-zero grid of
    [markerSize_bits + 2] rows without reading a bit. *)
Theorem create_marker_bits_errors (n : Z) (byteList : list Z) :
  (1 <= n -> (length byteList < Z.to_nat (n * n))%nat ->
   _create_marker_bits n byteList = Raise IndexError)
  /\ (n < -2 -> _create_marker_bits n byteList = Raise ValueError)
  /\ (-2 <= n <= 0 ->
      _create_marker_bits n byteList = Val (zeros (Z.to_nat (n + 2)))).
Proof.
  split; [|split].
  - intros Hn Hshort. unfold _create_marker_bits.
    destruct (Z.ltb_spec (n + 2) 0) as [?|_]; [lia|].
    set (L := Z.of_nat (length byteList)).
    assert (0 <= L < n * n) as HL by lia.
    assert (0 <= L / n < n) as Hi0.
    { split; [apply Z.div_pos; lia|].
      apply Z.div_lt_upper_bound; lia. }
    assert (0 <= L mod n < n) as Hj0 by (apply Z.mod_pos_bound; lia).
    assert (L = n * (L / n) + L mod n) as HLeq by (apply Z.div_mod; lia).
    rewrite (range_split n (L / n)) at 1 by done.
    rewrite res_fold_app.
    destruct (res_fold_range_val
                (fun i marker =>
                   res_fold (range n)
                     (fun j marker =>
                        match byteList !! Z.to_nat (i * n + j) with
                        | Some v => Val (set_bit i j v marker)
                        | None => Raise IndexError
                        end) marker)
                (L / n) (zeros (Z.to_nat (n + 2)))) as [grid ->].
    { intros i marker Hi. apply res_fold_range_val. intros j marker1 Hj.
      destruct (lookup_lt_is_Some_2 byteList (Z.to_nat (i * n + j)))
        as [v ->]; [|by eexists].
      assert (i * n + j < L) by nia. lia. }
    simpl.
    rewrite (range_split n (L mod n)) at 1 by done.
    rewrite res_fold_app.
    destruct (res_fold_range_val
                (fun j marker =>
                   match byteList !! Z.to_nat (L / n * n + j) with
                   | Some v => Val (set_bit (L / n) j v marker)
                   | None => Raise IndexError
                   end) (L mod n) grid) as [grid' ->].
    { intros j marker1 Hj.
      destruct (lookup_lt_is_Some_2 byteList (Z.to_nat (L / n * n + j)))
        as [v ->]; [|by eexists].
      assert (L / n * n + j < L) by lia. lia. }
    simpl.
    rewrite lookup_ge_None_2; [done|].
    assert (L / n * n + L mod n = L) by lia. lia.
  - intros Hn. unfold _create_marker_bits.
    by destruct (Z.ltb_spec (n + 2) 0) as [_|?]; [|lia].
  - intros Hn. unfold _create_marker_bits.
    destruct (Z.ltb_spec (n + 2) 0) as [?|_]; [lia|].
    by rewrite (range_nonpos n) by lia.
Qed.

Lemma create_marker_bits_errors_witness :
  _create_marker_bits 2 [1; 0; 1] = Raise IndexError
  /\ _create_marker_bits (-3) [1; 0; 1] = Raise ValueError
  /\ _create_marker_bits 0 [1; 0; 1] = Val [[0; 0]; [0; 0]].
Proof.
  destruct (create_marker_bits_errors 2 [1; 0; 1]) as (Hshort & _ & _).
  destruct (create_marker_bits_errors (-3) [1; 0; 1]) as (_ & Hneg & _).
  destruct (create_marker_bits_errors 0 [1; 0; 1]) as (_ & _ & Hzero).
  split; [apply Hshort; simpl; lia|].
  split; [apply Hneg; lia | apply Hzero; lia].
Defined.

(** X10.  [_create_marker_bits] reads the first
    [markerSize_bits * markerSize_bits] bits only: whatever follows them in
    the sequence does not change the grid. *)
Theorem create_marker_bits_ignores_tail (n : Z) (byteList extra : list Z) :
  (Z.to_nat (n * n) <= length byteList)%nat ->
  _create_marker_bits n (byteList ++ extra) = _create_marker_bits n byteList.
Proof.
  intros Hlen. unfold _create_marker_bits.
  destruct (n + 2 <? 0); [done|].
  apply res_fold_ext. intros i marker Hi.
  apply res_fold_ext. intros j marker1 Hj.
  apply elem_of_range in Hi, Hj.
  rewrite lookup_app_l; [done|].
  eapply Nat.lt_le_trans; [|exact Hlen]. clear Hlen.
  assert (i * n <= (n - 1) * n) by (apply Z.mul_le_mono_nonneg_r; lia).
  assert (0 <= i * n) by (apply Z.mul_nonneg_nonneg; lia).
  apply Z2Nat.inj_lt; lia.
Qed.

Lemma create_marker_bits_ignores_tail_witness :
  _create_marker_bits 2 ([1; 0; 1; 1] ++ [1; 1; 1])
  = _create_marker_bits 2 [1; 0; 1; 1].
Proof.
  apply (create_marker_bits_ignores_tail 2 [1; 0; 1; 1] [1; 1; 1]).
  simpl. lia.
Defined.

(** ** Marker board: failures other than the two checks *)

(** X11.  [make_charuco_board] opens the dictionary only after the
    marker-size check: with a marker larger than the square the outcome does
    not depend on the file system at all; with a marker that fits, a failure
    to open or parse the dictionary propagates as raised, nothing printed and
    nothing drawn. *)
Theorem charuco_dictionary_access (fs : FileSystem) (self : PatternMaker)
    (st : Store) :
  ((square_size self < aruco_marker_size self)%Q ->
   forall fs', make_charuco_board fs' self st = make_charuco_board fs self st)
  /\ ((aruco_marker_size self <= square_size self)%Q ->
      forall e, fs (dict_file self) = Raise e ->
        make_charuco_board fs self st = (Raise e, st)).
Proof.
  split.
  - intros Hbig fs'. by rewrite !charuco_too_large.
  - intros Hfit e Hfs. by apply charuco_load_error.
Qed.

Lemma charuco_dictionary_access_witness :
  make_charuco_board (fun _ => Raise OSError) board_5x5 init_store
  = (Raise OSError, init_store).
Proof.
  apply (proj2 (charuco_dictionary_access (fun _ => Raise OSError)
                  board_5x5 init_store)).
  - unfold Qle. simpl. lia.
  - reflexivity.
Defined.






(** ** Marker board: the order of the markers and the warning *)




(** X15.  The narrow-border warning never changes the drawing: whenever
    the checks pass on a well-formed dictionary, [make_charuco_board]
    returns with the group holding what it held before followed by the
    same board, whether or not the warning is printed; the drawing and the
    output file are untouched, and the standard output is either unchanged
    or longer by the one warning line. *)
Theorem charuco_narrow_border (fs : FileSystem) (self : PatternMaker)
    (st : Store) (d : Dictionary) :
  Z.abs (cols self * rows self) <= 2 ^ 53 ->
  (aruco_marker_size self <= square_size self)%Q ->
  fs (dict_file self) = Val d ->
  well_formed d -> 0 <= cols self -> 0 <= rows self ->
  markers_needed self <= nmarkers d ->
  (make_charuco_board fs self st).1 = Val tt
  /\ g (make_charuco_board fs self st).2
     = g st ++ charuco_board_prims self d
  /\ dwg (make_charuco_board fs self st).2 = dwg st
  /\ output_file (make_charuco_board fs self st).2 = output_file st
  /\ (stdout (make_charuco_board fs self st).2 = stdout st
      \/ exists b s,
           stdout (make_charuco_board fs self st).2
           = stdout st ++ [NarrowBorder b s]).
Proof.
  intros _ Hfit Hfs Hwf Hcols Hrows Hcount.
  rewrite (charuco_proceeds fs self st d) by done.
  destruct (charuco_draw_run self d st Hwf Hcols Hrows Hcount)
    as (st1 & -> & [-> | (b & s & ->)]); simpl.
  - repeat split; by left.
  - repeat split. right. by exists b, s.
Qed.

Lemma charuco_narrow_border_witness :
  (make_charuco_board fs_12 board_5x5 init_store).1 = Val tt
  /\ g (make_charuco_board fs_12 board_5x5 init_store).2
     = charuco_board_prims board_5x5 aruco_12.
Proof.
  destruct (charuco_narrow_border fs_12 board_5x5 init_store aruco_12)
    as (Hret & Hg & _).
  - vm_compute. discriminate.
  - unfold Qle. simpl. lia.
  - reflexivity.
  - exact aruco_12_well_formed.
  - simpl. lia.
  - simpl. lia.
  - vm_compute. discriminate.
  - split; [exact Hret | exact Hg].
Defined.

(** ** Marker board: which white squares are drawn *)

Lemma grid_get_at img y_ x_ :
  grid_get img y_ x_
  = match grid_at img (Z.to_nat y_) (Z.to_nat x_) with
    | Some v => Val v
    | None => Raise IndexError
    end.
Proof.
  unfold grid_get, grid_at.
  destruct (img !! Z.to_nat y_) as [row|]; simpl; [|done].
  by destruct (row !! Z.to_nat x_).
Qed.

(** The white squares of a marker built from [byteList]: one for each bit
    that is not 0, one cell in from the marker's border. *)
Lemma bit_prims_nonzero_bits self geo x y n byteList img p :
  0 <= n -> (Z.to_nat (n * n) <= length byteList)%nat ->
  _create_marker_bits n byteList = Val img ->
  p ∈ bit_prims self geo x y img
  <-> exists i j v,
        0 <= i < n /\ 0 <= j < n
        /\ byteList !! Z.to_nat (i * n + j) = Some v /\ v <> 0
        /\ p = bit_rect self geo x y (1 + j) (1 + i).
Proof.
  intros Hn Hlen Himg.
  destruct (create_marker_bits_inv n byteList Hn Hlen)
    as (img' & Himg' & Hsq & Hcells).
  rewrite Himg in Himg'. injection Himg' as <-.
  assert (length img = Z.to_nat (n + 2)) as Hrows by apply Hsq.
  unfold bit_prims.
  rewrite (grid_width_square (Z.to_nat (n + 2))), Hrows by (done || lia).
  rewrite !Z2Nat.id by lia.
  split.
  - intros Hp.
    apply elem_of_concat_fmap_inv in Hp as (x_ & Hx_ & Hp).
    apply elem_of_concat_fmap_inv in Hp as (y_ & Hy_ & Hp).
    apply elem_of_range in Hx_, Hy_.
    rewrite grid_get_at, Hcells in Hp by lia.
    destruct (Z.eqb_spec (partial_cell n byteList n 0 (Z.to_nat y_)
                            (Z.to_nat x_)) 0) as [_|Hv];
      [by apply elem_of_nil in Hp|].
    apply list_elem_of_singleton in Hp.
    unfold partial_cell in Hv. rewrite !Z2Nat.id in Hv by lia.
    case_decide as Hin; [|done].
    exists (y_ - 1), (x_ - 1).
    destruct (byteList !! Z.to_nat ((y_ - 1) * n + (x_ - 1))) as [v|] eqn:Hbit;
      [|done].
    exists v. simpl in Hv.
    replace (1 + (x_ - 1)) with x_ by lia.
    replace (1 + (y_ - 1)) with y_ by lia.
    repeat split; (done || lia).
  - intros (i & j & v & Hi & Hj & Hbit & Hv & ->).
    apply (elem_of_concat_fmap _ _ (1 + j)); [apply elem_of_range; lia|].
    apply (elem_of_concat_fmap _ _ (1 + i)); [apply elem_of_range; lia|].
    rewrite grid_get_at, Hcells by lia.
    unfold partial_cell. rewrite !Z2Nat.id by lia.
    rewrite decide_True by lia.
    replace ((1 + i - 1) * n + (1 + j - 1)) with (i * n + j) by lia.
    rewrite Hbit. simpl.
    destruct (Z.eqb_spec v 0); [done|]. apply list_elem_of_here.
Qed.

(** X16.  For a marker cell, one pass of the grid loop of
    [make_charuco_board] takes the next marker, adds the black marker square
    and then a white square for exactly the bits of the marker that are not
    0: bit (i, j) of the sequence, row i and column j, is drawn at column
    1 + j and row 1 + i of the marker's cell grid, so no white square ever
    falls on the marker's outer ring. *)
Theorem charuco_marker_cell (self : PatternMaker) (d : Dictionary)
    (geo : CharucoGeometry) (x y marker_id : Z) (byteList : list Z)
    (st : Store) :
  0 <= cg_bits geo ->
  same_parity x y = false ->
  marker_entries d !! marker_key marker_id = Some byteList ->
  (Z.to_nat (cg_bits geo * cg_bits geo) <= length byteList)%nat ->
  exists whites,
    charuco_cell self d geo y x marker_id st
    = (Val (marker_id + 1),
       add_prims (marker_rect self geo x y :: whites) st)
    /\ forall p,
         p ∈ whites
         <-> exists i j v,
               0 <= i < cg_bits geo /\ 0 <= j < cg_bits geo
               /\ byteList !! Z.to_nat (i * cg_bits geo + j) = Some v
               /\ v <> 0
               /\ p = bit_rect self geo x y (1 + j) (1 + i).
Proof.
  intros Hn Hpar Hkey Hlen.
  destruct (create_marker_bits_inv (cg_bits geo) byteList Hn Hlen)
    as (img & Himg & _).
  exists (bit_prims self geo x y img). split.
  - rewrite charuco_cell_run; [|done|by exists byteList].
    rewrite Hpar. unfold marker_prims, dict_marker.
    by rewrite Hkey, Himg.
  - intros p. by apply (bit_prims_nonzero_bits _ _ _ _ (cg_bits geo) byteList).
Qed.

Lemma charuco_marker_cell_witness :
  exists whites,
    charuco_cell board_5x5 aruco_12 (charuco_geometry board_5x5 aruco_12)
      0 1 0 init_store
    = (Val 1,
       add_prims (marker_rect board_5x5 (charuco_geometry board_5x5 aruco_12)
                    1 0 :: whites) init_store)
    /\ bit_rect board_5x5 (charuco_geometry board_5x5 aruco_12) 1 0 1 1
       ∈ whites.
Proof.
  destruct (charuco_marker_cell board_5x5 aruco_12
              (charuco_geometry board_5x5 aruco_12) 1 0 0 [1] init_store)
    as (whites & Hrun & Hwhites).
  - simpl. lia.
  - reflexivity.
  - reflexivity.
  - simpl. lia.
  - exists whites. split; [exact Hrun|].
    apply Hwhites. exists 0, 0, 1. simpl. repeat split; lia.
Defined.

(** X17.  The marker sits in the middle of its cell and its cell grid
    fills it: the marker square is inset from the cell's square by the same
    amount on the left and right and on the top and bottom, the white square
    of column x_ and row y_ starts x_ and y_ bit sides from the marker
    square's corner, and [markerSize_bits + 2] bit sides make up exactly the
    marker size. *)
Theorem marker_geometry (self : PatternMaker) (d : Dictionary) (x y : Z) :
  markersize d + 2 <> 0 ->
  exists cx cy mx my side,
    cell_rect self x y
    = Rect (cx, cy) (square_size self, square_size self) "black" "none" None
    /\ marker_rect self (charuco_geometry self d) x y
       = Rect (mx, my) (aruco_marker_size self, aruco_marker_size self)
              "black" "none" None
    /\ (mx - cx == cx + square_size self - (mx + aruco_marker_size self))%Q
    /\ (my - cy == cy + square_size self - (my + aruco_marker_size self))%Q
    /\ (forall x_ y_,
          exists bx by_,
            bit_rect self (charuco_geometry self d) x y x_ y_
            = Rect (bx, by_) (side, side) "white" "white"
                   (Some (square_size self * 0.01)%Q)
            /\ (bx == mx + inject_Z x_ * side)%Q
            /\ (by_ == my + inject_Z y_ * side)%Q)
    /\ (inject_Z (markersize d + 2) * side == aruco_marker_size self)%Q.
Proof.
  intros Hside. apply inject_Z_nonzero in Hside.
  do 5 eexists.
  split; [reflexivity|]. split; [reflexivity|].
  split; [simpl; field|]. split; [simpl; field|].
  split.
  - intros x_ y_. do 2 eexists. split; [reflexivity|]. by split.
  - simpl. field. exact Hside.
Qed.

Lemma marker_geometry_witness :
  exists side,
    (inject_Z (markersize aruco_12 + 2) * side
     == aruco_marker_size board_5x5)%Q.
Proof.
  destruct (marker_geometry board_5x5 aruco_12 1 0)
    as (cx & cy & mx & my & side & _ & _ & _ & _ & _ & Hfill).
  - simpl. lia.
  - exists side. exact Hfill.
Defined.

(** ** The callers: generating, then serialising *)

Lemma quiet_keeps_drawing {A} (m : M A) : quiet m -> keeps_drawing m.
Proof. intros Hm st. by destruct (Hm st) as (_ & ? & ?). Qed.

Lemma keeps_drawing_print msg : keeps_drawing (print msg).
Proof. by intros st. Qed.

Lemma keeps_drawing_bind {A B} (m : M A) (k : A -> M B) :
  keeps_drawing m -> (forall a, keeps_drawing (k a)) ->
  keeps_drawing (bind m k).
Proof.
  intros Hm Hk st. unfold bind.
  destruct (Hm st) as (H1 & H2).
  destruct (m st) as [[a|e] st1]; simpl in *; [|done].
  destruct (Hk a st1) as (K1 & K2). by rewrite K1, K2.
Qed.

Lemma quiet_circles self : quiet (make_circles_pattern self).
Proof.
  apply quiet_bind; [apply quiet_lift | intros geo].
  apply quiet_for_each; intros x. apply quiet_for_each; intros y.
  apply quiet_emit.
Qed.

Lemma quiet_acircles self : quiet (make_acircles_pattern self).
Proof.
  apply quiet_bind; [apply quiet_lift | intros geo].
  apply quiet_for_each; intros x. apply quiet_for_each; intros y.
  apply quiet_emit.
Qed.

Lemma quiet_checkerboard self : quiet (make_checkerboard_pattern self).
Proof.
  apply quiet_for_each; intros x. apply quiet_for_each; intros y.
  destruct (same_parity x y); [apply quiet_emit | apply quiet_ret].
Qed.

Lemma quiet_radon fmt self : quiet (make_radon_checkerboard_pattern fmt self).
Proof. intros st. by rewrite radon_run. Qed.

Lemma keeps_drawing_charuco fs self :
  keeps_drawing (make_charuco_board fs self).
Proof.
  unfold make_charuco_board.
  destruct (Qlt_le_dec _ _); [apply keeps_drawing_print|].
  apply keeps_drawing_bind; [apply quiet_keeps_drawing, quiet_lift|].
  intros d. destruct (nmarkers d <? markers_needed self);
    [apply keeps_drawing_print|].
  unfold charuco_draw.
  apply keeps_drawing_bind; [apply quiet_keeps_drawing, quiet_lift|].
  intros side.
  apply keeps_drawing_bind.
  - destruct (Qlt_le_dec _ _);
      [apply keeps_drawing_print | apply quiet_keeps_drawing, quiet_ret].
  - intros _. apply quiet_keeps_drawing, quiet_charuco_grid.
Qed.

(** What [run_pattern] runs, by pattern type. *)
Lemma run_pattern_cases fs fmt self pattern_type :
  (pattern_type = "charuco_board"
   /\ run_pattern fs fmt self pattern_type = make_charuco_board fs self)
  \/ (pattern_type = "circles"
      /\ forall st, run_pattern fs fmt self pattern_type st
                    = make_circles_pattern self st)
  \/ (pattern_type = "acircles"
      /\ forall st, run_pattern fs fmt self pattern_type st
                    = make_acircles_pattern self st)
  \/ (pattern_type = "checkerboard"
      /\ forall st, run_pattern fs fmt self pattern_type st
                    = make_checkerboard_pattern self st)
  \/ (pattern_type = "radon_checkerboard"
      /\ forall st, run_pattern fs fmt self pattern_type st
                    = make_radon_checkerboard_pattern fmt self st)
  \/ ((pattern_type ∉ ["charuco_board"; "circles"; "acircles";
                        "checkerboard"; "radon_checkerboard"])
      /\ forall st, run_pattern fs fmt self pattern_type st
                    = (Raise (KeyError pattern_type), st)).
Proof.
  unfold run_pattern.
  destruct (String.eqb_spec pattern_type "charuco_board") as [->|H0];
    [by left|right].
  unfold pattern_methods, table_get, bind, lift.
  destruct (String.eqb_spec "circles" pattern_type) as [<-|H1];
    [by left|right].
  destruct (String.eqb_spec "acircles" pattern_type) as [<-|H2];
    [by left|right].
  destruct (String.eqb_spec "checkerboard" pattern_type) as [<-|H3];
    [by left|right].
  destruct (String.eqb_spec "radon_checkerboard" pattern_type) as [<-|H4];
    [by left|right].
  split; [|done].
  intros Hin. repeat (apply elem_of_cons in Hin as [Hin | Hin]; [done|]).
  by apply elem_of_nil in Hin.
Qed.

Lemma run_pattern_keeps_drawing fs fmt self pattern_type :
  keeps_drawing (run_pattern fs fmt self pattern_type).
Proof.
  intros st.
  destruct (run_pattern_cases fs fmt self pattern_type)
    as [[-> Hrun] | [[-> Hrun] | [[-> Hrun] | [[-> Hrun] | [[-> Hrun]
        | [Hnot Hrun]]]]]];
    rewrite Hrun.
  - apply keeps_drawing_charuco.
  - by destruct (quiet_circles self st) as (_ & H1 & H2).
  - by destruct (quiet_acircles self st) as (_ & H1 & H2).
  - by destruct (quiet_checkerboard self st) as (_ & H1 & H2).
  - by destruct (quiet_radon fmt self st) as (_ & H1 & H2).
  - done.
Qed.

(** X18.  Generating a pattern never touches the drawing's children or the
    output file, whichever method the pattern type names and whether it
    returns or raises; a pattern type that is neither "charuco_board" nor a
    key of the method table raises [KeyError] with the store untouched. *)
Theorem generation_keeps_drawing (fs : FileSystem) (fmt : Q -> string)
    (self : PatternMaker) (pattern_type : string) (st : Store) :
  dwg (run_pattern fs fmt self pattern_type st).2 = dwg st
  /\ output_file (run_pattern fs fmt self pattern_type st).2
     = output_file st
  /\ ((pattern_type ∉ ["charuco_board"; "circles"; "acircles";
                        "checkerboard"; "radon_checkerboard"]) ->
      run_pattern fs fmt self pattern_type st
      = (Raise (KeyError pattern_type), st)).
Proof.
  destruct (run_pattern_keeps_drawing fs fmt self pattern_type st) as [H1 H2].
  split; [done|]. split; [done|].
  intros Hnot.
  destruct (run_pattern_cases fs fmt self pattern_type)
    as [[-> _] | [[-> _] | [[-> _] | [[-> _] | [[-> _] | [_ Hrun]]]]]];
    [exfalso; apply Hnot; repeat constructor.. | apply Hrun].
Qed.

Lemma generation_keeps_drawing_witness :
  run_pattern fs_12 fmt_fraction default_board "charuco" init_store
  = (Raise (KeyError "charuco"), init_store).
Proof.
  apply (generation_keeps_drawing fs_12 fmt_fraction default_board
           "charuco" init_store).
  intros Hin. repeat (apply elem_of_cons in Hin as [Hin | Hin];
                      [discriminate Hin|]).
  by apply elem_of_nil in Hin.
Defined.

(** X19.  On a fresh drawing the preview pipeline, generate and then
    [get_svg_string], when it returns, returns a document with one copy of
    the group holding every primitive generated; and the save pipeline on the
    same store writes that same document to the output file. *)
Theorem preview_document (fs : FileSystem) (fmt : Q -> string)
    (self : PatternMaker) (pattern_type : string) (st : Store)
    (doc : Document) (st' : Store) :
  dwg st = [Defs] ->
  preview_svg fs fmt self pattern_type st = (Val doc, st') ->
  doc = [RDefs; RGroup (g st')]
  /\ g st' = g (run_pattern fs fmt self pattern_type st).2
  /\ exists st'',
       save_svg fs fmt self pattern_type st = (Val tt, st'')
       /\ output_file st'' = Some doc.
Proof.
  intros Hdwg Hrun.
  destruct (run_pattern_keeps_drawing fs fmt self pattern_type st)
    as [Hkeep _].
  unfold preview_svg, save_svg, bind in *.
  destruct (run_pattern fs fmt self pattern_type st) as [[[]|e] st1];
    [|discriminate Hrun].
  simpl in Hkeep. rewrite Hdwg in Hkeep.
  unfold get_svg_string, save, bind, dwg_add_g in *. simpl in *.
  injection Hrun as <- <-. unfold tostring. simpl. rewrite Hkeep. simpl.
  split; [done|]. split; [done|]. by eexists.
Qed.

Lemma preview_document_witness :
  exists doc st',
    preview_svg fs_12 fmt_fraction default_board "circles" init_store
    = (Val doc, st')
    /\ doc = [RDefs; RGroup (g st')].
Proof.
  destruct (preview_svg fs_12 fmt_fraction default_board "circles" init_store)
    as [[doc|e] st'] eqn:Hrun.
  - exists doc, st'. split; [reflexivity|].
    apply (preview_document fs_12 fmt_fraction default_board "circles"
             init_store doc st' eq_refl Hrun).
  - vm_compute in Hrun. discriminate Hrun.
Defined.

(** ** requirment.py *)

Lemma check_loop_no_crash import_module deps :
  forall out missing,
    (forall dep, dep ∈ deps -> import_module dep.2 <> ImportCrash) ->
    check_loop import_module deps out missing
    = (out ++ (report_line import_module <$> deps),
       Some (missing
             ++ (fst <$> List.filter (is_missing import_module) deps))).
Proof.
  induction deps as [|[pkg_name module_name] deps IH];
    intros out missing Hok; simpl.
  - by rewrite !app_nil_r.
  - assert (import_module module_name <> ImportCrash) as Hhere
      by apply (Hok (pkg_name, module_name)), list_elem_of_here.
    unfold is_missing, report_line. simpl.
    destruct (import_module module_name) eqn:Himp; [| |done];
      rewrite IH by (intros dep Hdep; by apply Hok, list_elem_of_further);
      csimpl; by rewrite <- !app_assoc.
Qed.

(** X21.  [check_dependencies], when no import raises anything but
    [ImportError], reports all four dependencies in the table's order, one
    line each, even after a missing one; it then exits through [sys.exit]
    with its message exactly when at least one module failed to import, and
    returns otherwise. *)
Theorem check_dependencies_exit (import_module : string -> Import) :
  (forall dep, dep ∈ dependencies -> import_module dep.2 <> ImportCrash) ->
  exists how,
    check_dependencies import_module
    = (report_line import_module <$> dependencies, how)
    /\ (how = Returns
        <-> forall dep, dep ∈ dependencies -> import_module dep.2 = ImportOk)
    /\ (how = SysExit "One or more required packages are missing."
        <-> exists dep, dep ∈ dependencies
                        /\ import_module dep.2 = ImportError).
Proof.
  intros Hok. unfold check_dependencies.
  rewrite check_loop_no_crash by done.
  set (miss := List.filter (is_missing import_module) dependencies).
  assert (forall dep, dep ∈ miss
            <-> dep ∈ dependencies /\ import_module dep.2 = ImportError)
    as Hfilter.
  { intros dep. unfold miss. rewrite !list_elem_of_In, filter_In.
    unfold is_missing.
    split; intros [Hin Himp]; (split; [done|]);
      by destruct (import_module dep.2). }
  clearbody miss. cbn [app].
  destruct miss as [|dep0 rest]; cbn [fmap list_fmap].
  - exists Returns. split; [done|]. split.
    + split; [|done]. intros _ dep Hdep.
      pose proof (Hok dep Hdep) as Hnocrash.
      destruct (import_module dep.2) eqn:Himp; [done | | done].
      assert (dep ∈ @nil (string * string)) as Hnil by (by apply Hfilter).
      by apply elem_of_nil in Hnil.
    + split; [done|]. intros (dep & Hdep & Himp).
      assert (dep ∈ @nil (string * string)) as Hnil by (by apply Hfilter).
      by apply elem_of_nil in Hnil.
  - eexists. split; [reflexivity|]. split.
    + split; [done|]. intros Hall.
      assert (dep0 ∈ dependencies /\ import_module dep0.2 = ImportError)
        as [Hdep Himp] by apply Hfilter, list_elem_of_here.
      rewrite (Hall dep0 Hdep) in Himp. discriminate Himp.
    + split; [|done]. intros _. exists dep0.
      apply Hfilter, list_elem_of_here.
Qed.

Lemma check_dependencies_exit_witness :
  check_dependencies
    (fun m => if String.eqb m "PIL" then ImportError else ImportOk)
  = (["numpy is installed.";
      "Pillow is missing. Please install it using pip.";
      "cairosvg is installed."; "svgwrite is installed."],
     SysExit "One or more required packages are missing.").
Proof.
  destruct (check_dependencies_exit
              (fun m => if String.eqb m "PIL" then ImportError else ImportOk))
    as (how & Hrun & _ & Hexit).
  - intros dep _. simpl. destruct (String.eqb dep.2 "PIL"); discriminate.
  - rewrite Hrun. f_equal. apply Hexit.
    exists ("Pillow", "PIL"). split; [|reflexivity].
    apply list_elem_of_In. simpl. auto.
Defined.

(** ** The checkerboard grid on the page *)

(** X22.  The squares of the three checkerboards lie on one grid that is
    centred on the page: the square of cell (x, y) has side squareSize, the
    square of the next column starts where it ends and likewise the next
    row, and the margin left of column 0 equals the margin right of column
    cols-1, as the margin above row 0 equals the margin below row rows-1. *)
Theorem board_grid_centred (self : PatternMaker) (x y : Z) :
  exists ox oy ox' oy' x0 y0 x1 y1,
    cell_rect self x y
    = Rect (ox, oy) (square_size self, square_size self) "black" "none" None
    /\ cell_rect self (x + 1) (y + 1)
       = Rect (ox', oy') (square_size self, square_size self)
              "black" "none" None
    /\ (ox' == ox + square_size self)%Q
    /\ (oy' == oy + square_size self)%Q
    /\ cell_rect self 0 0
       = Rect (x0, y0) (square_size self, square_size self)
              "black" "none" None
    /\ cell_rect self (cols self - 1) (rows self - 1)
       = Rect (x1, y1) (square_size self, square_size self)
              "black" "none" None
    /\ (x0 == width self - (x1 + square_size self))%Q
    /\ (y0 == height self - (y1 + square_size self))%Q.
Proof.
  do 8 eexists.
  do 2 (split; [reflexivity|]).
  split; [rewrite inject_Z_plus; change (inject_Z 1) with 1%Q; ring|].
  split; [rewrite inject_Z_plus; change (inject_Z 1) with 1%Q; ring|].
  do 2 (split; [reflexivity|]).
  unfold board_xspacing, board_yspacing. rewrite !inject_Z_pred.
  change (inject_Z 0) with 0%Q. split; field.
Qed.
